(** * Tic-tac-toe backend: the game session state machine

    A shallow embedding of [src/api/utils.py] (win detection, full-board
    test, computer move), [src/api/db.py] (the [Player], [Game] and [Move]
    rows) and [src/api/routes.py] (the game, account and leaderboard
    handlers), followed by the properties of the session state machine.

    Conventions of the embedding.
    - Python [int]s that come from a request (coordinates, player ids) are
      [Z]; counts and list indices are [nat].
    - A board cell is [None], ["X"] or ["O"] in the source: the two string
      literals are the constructors of [Symbol], a cell is [option Symbol],
      and Python truthiness of a cell is [truthy].
    - A board is a list of rows, as in the source.  Indexing a list out of
      range raises [IndexError] in Python; [cell_at] returns [None] and
      [set_cell] does nothing there.  Every board a game holds is 3x3
      ([wf_board], lemma [reachable_wf]) and every index the handlers use
      is in [0,3), so those cases are never met.
    - [random.choice] is given the index it draws as an extra argument.
    - The ORM session is a small state-and-exception monad over the rows of
      one game: [db_.add] queues a row, [db_.commit] writes the changed
      columns of the loaded game and the queued rows, [db_.refresh] reloads
      the game from its row.
    - [games.board] is a plain [Column(JSON)] ([db.py], line 36).  The list
      [g.board] of a loaded game is one object: [play_move] takes it
      ([board = g.board]), changes it in place and assigns that same list
      back ([g.board = board]); the computer's half changes it in place
      without assigning.  The session finds a column changed when the
      attribute was assigned a value that differs from the one it held;
      here both are the one list.  So a commit never writes [board]
      ([flushed]), and [db_.refresh] brings back the board of the row.
    - A commit fails when a row it inserts breaks a [nullable=False] of
      [db.py], and may fail for reasons outside the program: [commit_ok k]
      says whether the database accepts the [k]-th commit of the request.
      A failed commit raises and stores nothing.
    - The handlers only touch the game row they load by id and the move
      rows they add for it, so the store holds the rows of one game. *)

From stdpp Require Import base option list numbers strings sorting.

Local Open Scope Z_scope.

(** ** Values shared by the modules *)

Inductive Symbol := X | O.

Global Instance Symbol_eq_dec : EqDecision Symbol.
Proof. solve_decision. Defined.

(** [Optional[str]] holding ["X"], ["O"] or [None]. *)
Abbreviation cell := (option Symbol).

(** [List[List[Optional[str]]]] *)
Definition Board := list (list cell).

(** The [winner] column: ["X"], ["O"] or ["draw"]. *)
Inductive outcome := Won (s : Symbol) | Draw.

Global Instance outcome_eq_dec : EqDecision outcome.
Proof. solve_decision. Defined.

(** Python truthiness of a cell: [None] is false, a symbol is true. *)
Definition truthy (c : cell) : bool :=
  match c with Some _ => true | None => false end.

(** [board[i][j]] *)
Definition cell_at (b : Board) (i j : nat) : cell :=
  match b !! i with
  | Some row => match row !! j with Some c => c | None => None end
  | None => None
  end.

(** [board[i][j] = v] *)
Definition set_cell (b : Board) (i j : nat) (v : cell) : Board :=
  alter (fun row => <[j := v]> row) i b.

Definition wf_board (b : Board) : Prop :=
  length b = 3%nat /\ Forall (fun row => length row = 3%nat) b.

Definition empty_board : Board :=
  [[None; None; None]; [None; None; None]; [None; None; None]].

(** What a handler can raise: an [HTTPException], the [TypeError] of
    unpacking [None], the [IntegrityError] of a row the schema refuses, or
    the database error of a commit that fails for an outside reason. *)
Inductive exn :=
  | HTTPException (status_code : Z) (detail : string)
  | TypeError
  | IntegrityError
  | OperationalError.

Global Instance exn_eq_dec : EqDecision exn.
Proof. solve_decision. Defined.

Inductive Result (A : Type) :=
  | Ok (a : A)
  | Raise (e : exn).
Arguments Ok {A} a.
Arguments Raise {A} e.

(** ** models.py *)
Module models.

Record Move := { player_id : Z; x : Z; y : Z }.

Record GameCreate :=
  { player_x_id : Z; player_o_id : option Z; opponent_type : string }.

(** The records below share field names with those above and with each
    other, as the classes of [models.py] do: each has its own module. *)
Module Player.
Record t := { id : Z; username : string }.
End Player.

Module PlayerCreate.
Record t := { username : string; password : string }.
End PlayerCreate.

Module PlayerUpdate.
Record t := { username : option string; password : option string }.
End PlayerUpdate.

Module Token.
Record t := { access_token : string; token_type : string }.
End Token.

Module LeaderboardEntry.
Record t := { player_id : Z; username : string; score : nat }.
End LeaderboardEntry.

End models.

(** ** db.py *)
Module db.

Record Game := {
  id : Z;
  player_x_id : Z;
  player_o_id : option Z;
  board : Board;
  turn : Symbol;
  winner : option outcome;
  complete : bool;
  opponent_type : string
}.

Record Move := {
  game_id : Z;
  player_id : option Z;
  x : Z;
  y : Z;
  symbol : Symbol;
  move_number : nat
}.

(** Attribute assignments on a loaded [Game] object. *)
Definition set_player_o_id (g : Game) (v : option Z) : Game :=
  {| id := id g; player_x_id := player_x_id g; player_o_id := v;
     board := board g; turn := turn g; winner := winner g;
     complete := complete g; opponent_type := opponent_type g |}.

Definition set_board (g : Game) (v : Board) : Game :=
  {| id := id g; player_x_id := player_x_id g; player_o_id := player_o_id g;
     board := v; turn := turn g; winner := winner g;
     complete := complete g; opponent_type := opponent_type g |}.

Definition set_turn (g : Game) (v : Symbol) : Game :=
  {| id := id g; player_x_id := player_x_id g; player_o_id := player_o_id g;
     board := board g; turn := v; winner := winner g;
     complete := complete g; opponent_type := opponent_type g |}.

Definition set_winner (g : Game) (v : option outcome) : Game :=
  {| id := id g; player_x_id := player_x_id g; player_o_id := player_o_id g;
     board := board g; turn := turn g; winner := v;
     complete := complete g; opponent_type := opponent_type g |}.

Definition set_complete (g : Game) (v : bool) : Game :=
  {| id := id g; player_x_id := player_x_id g; player_o_id := player_o_id g;
     board := board g; turn := turn g; winner := winner g;
     complete := v; opponent_type := opponent_type g |}.

(** [player_id = Column(Integer, ForeignKey("players.id"), nullable=False)]:
    a [moves] row without a player cannot be inserted.  The other columns
    declared [nullable=False] always hold a value in the rows the handlers
    build. *)
Definition insertable (row : Move) : bool :=
  match player_id row with Some _ => true | None => false end.

(** The rows of one game: its [games] row and its [moves] rows, oldest
    first. *)
Record Store := { game : Game; moves : list Move }.

(** A request's session: the stored rows, the rows added and not yet
    committed, and the number of commits attempted so far. *)
Record Session := { store : Store; added : list Move; commits : nat }.

(** The [players] table row ([created_at] left out, as for [Game]). *)
Module Player.
Record t := { id : Z; username : string; password_hash : string }.
End Player.

End db.

(** ** utils.py *)
Module utils.

(** [[(i, j) for i in range(3) for j in range(3)]] *)
Definition range3x3 : list (nat * nat) :=
  i ← seq 0 3; j ← seq 0 3; [(i, j)].

(** [empty_cells] of [generate_computer_move]: the pairs with
    [not board[i][j]]. *)
Definition empty_cells (board : Board) : list (nat * nat) :=
  filter (fun ij => negb (truthy (cell_at board ij.1 ij.2)) = true) range3x3.

(** [generate_computer_move]; [rnd] is the draw of [random.choice],
    taken modulo the number of candidates. *)
Definition generate_computer_move (board : Board) (rnd : nat)
  : option (nat * nat) :=
  match empty_cells board with
  | [] => None
  | c :: cs => (c :: cs) !! (rnd mod length (c :: cs))%nat
  end.

(** [all(cell == symbol for cell in board[i])] *)
Definition row_all (board : Board) (symbol : Symbol) (i : nat) : bool :=
  forallb (fun c => bool_decide (c = Some symbol)) (default [] (board !! i)).

(** [all(board[r][i] == symbol for r in range(3))] *)
Definition col_all (board : Board) (symbol : Symbol) (i : nat) : bool :=
  forallb (fun r => bool_decide (cell_at board r i = Some symbol)) (seq 0 3).

(** [all(board[i][i] == symbol for i in range(3))] *)
Definition diag_all (board : Board) (symbol : Symbol) : bool :=
  forallb (fun i => bool_decide (cell_at board i i = Some symbol)) (seq 0 3).

(** [all(board[i][2 - i] == symbol for i in range(3))] *)
Definition anti_all (board : Board) (symbol : Symbol) : bool :=
  forallb (fun i => bool_decide (cell_at board i (2 - i)%nat = Some symbol))
          (seq 0 3).

(** The inner loop [for i in range(3)]: [true] when one of its two
    tests returns. *)
Fixpoint scan_lines (board : Board) (symbol : Symbol) (idxs : list nat)
  : bool :=
  match idxs with
  | [] => false
  | i :: idxs' =>
      if row_all board symbol i then true
      else if col_all board symbol i then true
      else scan_lines board symbol idxs'
  end.

(** One iteration of [for symbol in ["X", "O"]]: does it return? *)
Definition returns_symbol (board : Board) (symbol : Symbol) : bool :=
  if scan_lines board symbol (seq 0 3) then true
  else if diag_all board symbol then true
  else anti_all board symbol.

(** The outer loop over the symbols, first return wins. *)
Fixpoint first_symbol (board : Board) (symbols : list Symbol)
  : option Symbol :=
  match symbols with
  | [] => None
  | s :: rest =>
      if returns_symbol board s then Some s else first_symbol board rest
  end.

Definition check_winner (board : Board) : option Symbol :=
  first_symbol board [X; O].

(** [all(cell for row in board for cell in row)] *)
Definition is_board_full (board : Board) : bool :=
  forallb truthy (concat board).

End utils.

(** ** The ORM session as a monad *)

(** A handler step: from the session to a result or an exception, and the
    session after it. *)
Definition M (A : Type) : Type := db.Session -> Result A * db.Session.

Global Instance M_ret : MRet M := fun A (a : A) s => (Ok a, s).

Global Instance M_bind : MBind M := fun A B (k : A -> M B) (m : M A) s =>
  match m s with
  | (Ok a, s') => k a s'
  | (Raise e, s') => (Raise e, s')
  end.

Definition raise {A : Type} (e : exn) : M A := fun s => (Raise e, s).

(** [db_.query(db.Game).filter(db.Game.id == game_id).first()] *)
Definition query_game_first (game_id : Z) : M (option db.Game) := fun s =>
  let g := db.game (db.store s) in
  (Ok (if decide (db.id g = game_id) then Some g else None), s).

(** [db_.add(row)] *)
Definition db_add (row : db.Move) : M unit := fun s =>
  (Ok tt, {| db.store := db.store s; db.added := db.added s ++ [row];
             db.commits := db.commits s |}).

(** The session after a commit that failed: nothing is stored and the
    unit of work is discarded. *)
Definition rolled_back (s : db.Session) : db.Session :=
  {| db.store := db.store s; db.added := [];
     db.commits := S (db.commits s) |}.

(** The game row after a flush of the loaded object [g], [stored] being
    the row as it stands.  Every attribute but [board] holds an immutable
    value and is written as the handler assigned it.  [board] holds the
    list that was loaded: the handlers change that list in place and
    [play_move] assigns it to the attribute it came from, so the value the
    session kept to compare with is the same list and the column is not
    written. *)
Definition flushed (stored g : db.Game) : db.Game :=
  db.set_board g (db.board stored).

(** [db_.commit()] with the loaded object [g] in the session.  The added
    rows are inserted first: one the schema refuses raises
    [IntegrityError].  Otherwise, if the database accepts the commit, the
    changed columns of [g] are written and the added rows are appended.
    A failed commit stores nothing. *)
Definition db_commit (commit_ok : nat -> bool) (g : db.Game) : M unit :=
  fun s =>
    if negb (forallb db.insertable (db.added s)) then
      (Raise IntegrityError, rolled_back s)
    else if commit_ok (db.commits s) then
      (Ok tt,
       {| db.store := {| db.game := flushed (db.game (db.store s)) g;
                         db.moves := db.moves (db.store s) ++ db.added s |};
          db.added := []; db.commits := S (db.commits s) |})
    else (Raise OperationalError, rolled_back s).

(** [db_.refresh(g)]: the attributes are read again from the row. *)
Definition db_refresh : M db.Game := fun s => (Ok (db.game (db.store s)), s).

(** A request runs in a fresh session over the stored rows; what remains
    is the handler's result and the rows as stored. *)
Definition run {A : Type} (m : M A) (st : db.Store) : Result A * db.Store :=
  let r := m {| db.store := st; db.added := []; db.commits := 0 |} in
  (r.1, db.store r.2).

(** ** routes.py *)
Module routes.

(** [str(g.winner)] inside the f-string of the finished-game error. *)
Definition str_winner (w : option outcome) : string :=
  match w with
  | None => "None"
  | Some (Won X) => "X"
  | Some (Won O) => "O"
  | Some Draw => "draw"
  end.

Definition game_complete (w : option outcome) : exn :=
  HTTPException 400 ("Game is complete, winner: " +:+ str_winner w).
Definition not_your_game : exn :=
  HTTPException 403 "Not your game or not your turn".
Definition not_your_turn : exn := HTTPException 400 "Not your turn".
Definition invalid_coordinates : exn :=
  HTTPException 400 "Invalid move coordinates".
Definition cell_not_empty : exn := HTTPException 400 "Cell is not empty".
Definition game_not_found : exn := HTTPException 404 "Game not found".

(** [sum(1 for row in board for cell in row if cell)] *)
Definition count_occupied (board : Board) : nat :=
  length (filter (fun c => truthy c = true) (concat board)).

(** The outcome update shared by both halves of [play_move]:
    [if winner: ... elif is_board_full(board): ... else: g.turn = next]. *)
Definition settle (g : db.Game) (board : Board) (next : Symbol) : db.Game :=
  match utils.check_winner board with
  | Some w => db.set_complete (db.set_winner g (Some (Won w))) true
  | None =>
      if utils.is_board_full board
      then db.set_complete (db.set_winner g (Some Draw)) true
      else db.set_turn g next
  end.

Definition create_game (game : models.GameCreate) (current_player : Z)
    (new_id : Z) : Result db.Store :=
  let player_o_id : option Z := None in
  if bool_decide (models.opponent_type game = "human")
     || bool_decide (models.opponent_type game = "computer")
  then
    let new_game :=
      {| db.id := new_id;
         db.player_x_id := current_player;
         db.player_o_id := player_o_id;
         db.board := [[None; None; None]; [None; None; None];
                      [None; None; None]];
         db.turn := X;
         db.winner := None;
         db.complete := false;
         db.opponent_type := models.opponent_type game |} in
    Ok {| db.game := new_game; db.moves := [] |}
  else
    Raise (HTTPException 400
             "Invalid opponent type: must be 'human' or 'computer'").

(** [get_game]: the stored game, or the 404. *)
Definition get_game (game_id : Z) : M db.Game :=
  og ← query_game_first game_id;
  match og with
  | None => raise game_not_found
  | Some g => mret g
  end.

Section Handlers.

Variable commit_ok : nat -> bool.

Definition join_game (game_id : Z) (current_player : Z) : M db.Game :=
  og ← query_game_first game_id;
  match og with
  | None => raise game_not_found
  | Some g =>
      if negb (bool_decide (db.opponent_type g = "human")) then
        raise (HTTPException 400 "Join is only for human vs human games")
      else if bool_decide (db.player_x_id g = current_player) then
        raise (HTTPException 400 "Creator can't join as O")
      else if match db.player_o_id g with
              | Some p => negb (bool_decide (p = 0))
              | None => false
              end then
        raise (HTTPException 409 "Game already has two players")
      else
        let g := db.set_player_o_id g (Some current_player) in
        db_commit commit_ok g;;
        db_refresh
  end.

Definition play_move (game_id : Z) (move : models.Move)
    (current_player : Z) (rnd : nat) : M db.Game :=
  og ← query_game_first game_id;
  match og with
  | None => raise game_not_found
  | Some g =>
    if db.complete g then raise (game_complete (db.winner g)) else
    symbol ←
      (if bool_decide (db.player_x_id g = current_player) then mret X
       else if bool_decide (db.player_o_id g = Some current_player)
               || (bool_decide (db.opponent_type g = "computer")
                   && bool_decide (db.player_o_id g = None))
       then mret O
       else raise not_your_game);
    if negb (bool_decide (db.turn g = symbol)) then raise not_your_turn else
    if negb ((0 <=? models.x move) && (models.x move <? 3)
             && (0 <=? models.y move) && (models.y move <? 3))
    then raise invalid_coordinates else
    let board := db.board g in
    if truthy (cell_at board (Z.to_nat (models.x move))
                             (Z.to_nat (models.y move)))
    then raise cell_not_empty else
    (* in place: [board] is the list [g.board] holds *)
    let board := set_cell board (Z.to_nat (models.x move))
                          (Z.to_nat (models.y move)) (Some symbol) in
    (* Save move history *)
    let move_number := count_occupied board in
    let db_move :=
      {| db.game_id := game_id;
         db.player_id := Some current_player;
         db.x := models.x move;
         db.y := models.y move;
         db.symbol := symbol;
         db.move_number := move_number |} in
    (* [g.board = board], the same list *)
    let g := db.set_board g board in
    (* Check for winner *)
    let g := db.set_complete g false in
    let g := settle g board (if bool_decide (symbol = X) then O else X) in
    db_add db_move;;
    db_commit commit_ok g;;
    g ← db_refresh;
    (* If vs computer and no winner, make computer move *)
    if bool_decide (db.opponent_type g = "computer")
       && negb (db.complete g) && bool_decide (db.turn g = O)
    then
      match utils.generate_computer_move (db.board g) rnd with
      | None => raise TypeError
      | Some (cx, cy) =>
          (* [g.board[cx][cy] = "O"], in place *)
          let g := db.set_board g (set_cell (db.board g) cx cy (Some O)) in
          let db_move_comp :=
            {| db.game_id := game_id;
               db.player_id := None;
               db.x := Z.of_nat cx;
               db.y := Z.of_nat cy;
               db.symbol := O;
               db.move_number := (move_number + 1)%nat |} in
          let g := settle g (db.board g) X in
          db_add db_move_comp;;
          db_commit commit_ok g;;
          db_refresh
      end
    else mret g
  end.

End Handlers.

(** *** Accounts

    The account handlers work on the rows of the [players] table, passed
    in and out.  [query.filter(...).first()] is the first matching row.
    The id the database gives a new row, the value [hash_password]
    returns, the token [create_access_token] returns and whether the
    commit succeeds are arguments; [verify_password] is a function of the
    password and the stored hash. *)

Definition as_player (p : db.Player.t) : models.Player.t :=
  {| models.Player.id := db.Player.id p;
     models.Player.username := db.Player.username p |}.

(** Truthiness of an [Optional[str]]: [None] and the empty string are
    false. *)
Definition given (o : option string) : option string :=
  match o with
  | Some s => if bool_decide (s = "") then None else Some s
  | None => None
  end.

Definition first_by_username (players : list db.Player.t) (username : string)
  : option (nat * db.Player.t) :=
  list_find (fun p => db.Player.username p = username) players.

Definition first_by_id (players : list db.Player.t) (player_id : Z)
  : option (nat * db.Player.t) :=
  list_find (fun p => db.Player.id p = player_id) players.

Definition register (user : models.PlayerCreate.t) (new_id : Z)
    (password_hash : string) (commit_ok : bool) (players : list db.Player.t)
  : Result models.Player.t * list db.Player.t :=
  match first_by_username players (models.PlayerCreate.username user) with
  | Some _ => (Raise (HTTPException 400 "Username taken"), players)
  | None =>
      let new_player :=
        {| db.Player.id := new_id;
           db.Player.username := models.PlayerCreate.username user;
           db.Player.password_hash := password_hash |} in
      if commit_ok then (Ok (as_player new_player), players ++ [new_player])
      else (Raise OperationalError, players)
  end.

Definition login (verify_password : string -> string -> bool)
    (username password : string) (token : string)
    (players : list db.Player.t) : Result models.Token.t :=
  match first_by_username players username with
  | None => Raise (HTTPException 401 "Incorrect username or password")
  | Some (_, player) =>
      if negb (verify_password password (db.Player.password_hash player))
      then Raise (HTTPException 401 "Incorrect username or password")
      else Ok {| models.Token.access_token := token;
                 models.Token.token_type := "bearer" |}
  end.

Definition get_player (player_id : Z) (players : list db.Player.t)
  : Result models.Player.t :=
  match first_by_id players player_id with
  | None => Raise (HTTPException 404 "Player not found")
  | Some (_, p) => Ok (as_player p)
  end.

Definition update_player (player_id : Z) (update : models.PlayerUpdate.t)
    (current_player : Z) (password_hash : string) (commit_ok : bool)
    (players : list db.Player.t)
  : Result models.Player.t * list db.Player.t :=
  if negb (bool_decide (player_id = current_player)) then
    (Raise (HTTPException 403 "Can only update your own user"), players)
  else
    match first_by_id players player_id with
    | None => (Raise (HTTPException 404 "Player not found"), players)
    | Some (i, player) =>
        let renamed :=
          match given (models.PlayerUpdate.username update) with
          | Some username =>
              match first_by_username players username with
              | Some _ => Raise (HTTPException 400 "Username taken")
              | None =>
                  Ok {| db.Player.id := db.Player.id player;
                        db.Player.username := username;
                        db.Player.password_hash :=
                          db.Player.password_hash player |}
              end
          | None => Ok player
          end in
        match renamed with
        | Raise e => (Raise e, players)
        | Ok player =>
            let player :=
              match given (models.PlayerUpdate.password update) with
              | Some _ =>
                  {| db.Player.id := db.Player.id player;
                     db.Player.username := db.Player.username player;
                     db.Player.password_hash := password_hash |}
              | None => player
              end in
            if commit_ok then (Ok (as_player player), <[i := player]> players)
            else (Raise OperationalError, players)
        end
    end.

(** *** Leaderboard

    [leaderboard] reads the [players] and the [games] tables.  Its first
    loop fills [win_dict], which is never read, and is left out. *)

(** [x_wins + o_wins] for the player with id [player_id]. *)
Definition wins (games : list db.Game) (player_id : Z) : nat :=
  (length (filter (fun g => db.player_x_id g = player_id
                            /\ db.winner g = Some (Won X)) games)
   + length (filter (fun g => db.player_o_id g = Some player_id
                              /\ db.winner g = Some (Won O)) games))%nat.

(** [entries.sort(key=lambda e: e.score, reverse=True)]: by score,
    highest first, entries of equal score in their order (the sort is
    stable). *)
Fixpoint insert_entry (e : models.LeaderboardEntry.t)
    (l : list models.LeaderboardEntry.t) : list models.LeaderboardEntry.t :=
  match l with
  | [] => [e]
  | h :: t =>
      if (models.LeaderboardEntry.score h <=? models.LeaderboardEntry.score e)%nat
      then e :: l
      else h :: insert_entry e t
  end.

Definition sort_by_score (l : list models.LeaderboardEntry.t)
  : list models.LeaderboardEntry.t :=
  foldr insert_entry [] l.

Definition entry_of (games : list db.Game) (p : db.Player.t)
  : models.LeaderboardEntry.t :=
  {| models.LeaderboardEntry.player_id := db.Player.id p;
     models.LeaderboardEntry.username := db.Player.username p;
     models.LeaderboardEntry.score := wins games (db.Player.id p) |}.

Definition leaderboard (players : list db.Player.t) (games : list db.Game)
  : list models.LeaderboardEntry.t :=
  sort_by_score (entry_of games <$> players).

End routes.

(** Every commit succeeds. *)
Definition all_ok : nat -> bool := fun _ => true.

(** ** Vocabulary of the properties *)

(** The symbol [play_move] resolves for the acting player, [None] when it
    raises the 403. *)
Definition resolve_symbol (g : db.Game) (current_player : Z) : option Symbol :=
  if bool_decide (db.player_x_id g = current_player) then Some X
  else if bool_decide (db.player_o_id g = Some current_player)
          || (bool_decide (db.opponent_type g = "computer")
              && bool_decide (db.player_o_id g = None))
  then Some O
  else None.

(** [0 <= move.x < 3 and 0 <= move.y < 3] *)
Definition in_range (move : models.Move) : bool :=
  (0 <=? models.x move) && (models.x move <? 3)
  && (0 <=? models.y move) && (models.y move <? 3).

(** The cell a request addresses. *)
Definition target (b : Board) (move : models.Move) : cell :=
  cell_at b (Z.to_nat (models.x move)) (Z.to_nat (models.y move)).

(** The five rejections of [play_move] in the order the handler tests
    them; [Ok symbol] when the move is accepted. *)
Definition validate (g : db.Game) (current_player : Z) (move : models.Move)
  : Result Symbol :=
  if db.complete g then Raise (routes.game_complete (db.winner g)) else
  match resolve_symbol g current_player with
  | None => Raise routes.not_your_game
  | Some symbol =>
      if negb (bool_decide (db.turn g = symbol)) then Raise routes.not_your_turn
      else if negb (in_range move) then Raise routes.invalid_coordinates
      else if truthy (target (db.board g) move) then Raise routes.cell_not_empty
      else Ok symbol
  end.

(** The order of section 4.3 of the specification: finished, bounds,
    participant, turn, occupancy. *)
Definition validate_spec_order (g : db.Game) (current_player : Z)
    (move : models.Move) : Result Symbol :=
  if db.complete g then Raise (routes.game_complete (db.winner g)) else
  if negb (in_range move) then Raise routes.invalid_coordinates else
  match resolve_symbol g current_player with
  | None => Raise routes.not_your_game
  | Some symbol =>
      if negb (bool_decide (db.turn g = symbol)) then Raise routes.not_your_turn
      else if truthy (target (db.board g) move) then Raise routes.cell_not_empty
      else Ok symbol
  end.

Definition other (s : Symbol) : Symbol := if bool_decide (s = X) then O else X.

(** The board [play_move] works on after it has placed [symbol]: the
    loaded list with the one cell set. *)
Definition placed (g : db.Game) (move : models.Move) (symbol : Symbol)
  : Board :=
  set_cell (db.board g) (Z.to_nat (models.x move))
           (Z.to_nat (models.y move)) (Some symbol).

(** The game row and the move row the first commit of [play_move] writes
    for an accepted request of [symbol]: the outcome and the move number
    are computed on [placed], the row keeps the board it had. *)
Definition human_half (g : db.Game) (game_id current_player : Z)
    (move : models.Move) (symbol : Symbol) : db.Game * db.Move :=
  let board := placed g move symbol in
  (flushed g (routes.settle (db.set_complete (db.set_board g board) false)
                            board (other symbol)),
   {| db.game_id := game_id; db.player_id := Some current_player;
      db.x := models.x move; db.y := models.y move; db.symbol := symbol;
      db.move_number := routes.count_occupied board |}).

(** The guard of the computer branch. *)
Definition computer_to_move (g : db.Game) : bool :=
  bool_decide (db.opponent_type g = "computer")
  && negb (db.complete g) && bool_decide (db.turn g = O).

Definition with_move (st : db.Store) (g : db.Game) (m : db.Move) : db.Store :=
  {| db.game := g; db.moves := db.moves st ++ [m] |}.

(** What a cell adds to the count of occupied cells. *)
Definition occ (c : cell) : nat := if truthy c then 1%nat else 0%nat.

(** A row, a column or a diagonal of [b] holds [s] three times. *)
Definition line_of (b : Board) (s : Symbol) : Prop :=
  (exists i, (i < 3)%nat /\ forall j, (j < 3)%nat -> cell_at b i j = Some s)
  \/ (exists j, (j < 3)%nat /\ forall i, (i < 3)%nat -> cell_at b i j = Some s)
  \/ (forall i, (i < 3)%nat -> cell_at b i i = Some s)
  \/ (forall i, (i < 3)%nat -> cell_at b i (2 - i)%nat = Some s).

(** [line_of] as a test: some row, some column, or a diagonal. *)
Definition has_line (b : Board) (s : Symbol) : bool :=
  existsb (fun i =>
    forallb (fun j => bool_decide (cell_at b i j = Some s)) (seq 0 3)) (seq 0 3)
  || existsb (fun j =>
       forallb (fun i => bool_decide (cell_at b i j = Some s)) (seq 0 3))
       (seq 0 3)
  || forallb (fun i => bool_decide (cell_at b i i = Some s)) (seq 0 3)
  || forallb (fun i => bool_decide (cell_at b i (2 - i)%nat = Some s)) (seq 0 3).

(** Replaying move rows on the empty board. *)
Definition place (b : Board) (m : db.Move) : Board :=
  set_cell b (Z.to_nat (db.x m)) (Z.to_nat (db.y m)) (Some (db.symbol m)).

Definition replay (l : list db.Move) : Board := foldl place empty_board l.

(** Move rows sorted by [move_number] (insertion sort, stable). *)
Fixpoint insert_move (m : db.Move) (l : list db.Move) : list db.Move :=
  match l with
  | [] => [m]
  | h :: t =>
      if (db.move_number m <=? db.move_number h)%nat then m :: l
      else h :: insert_move m t
  end.

Definition by_move_number (l : list db.Move) : list db.Move :=
  foldr insert_move [] l.

(** The symbol of the [k]-th move (from 0) of a game: X, O, X, ... *)
Definition nth_symbol (k : nat) : Symbol := if Nat.even k then X else O.

Definition alternating (n : nat) : list Symbol := map nth_symbol (seq 0 n).

(** No cell of the 3x3 board is empty. *)
Definition board_full (b : Board) : Prop :=
  forall i j, (i < 3)%nat -> (j < 3)%nat -> cell_at b i j <> None.

(** The [complete] invariant of the data model. *)
Definition complete_inv (g : db.Game) : Prop :=
  db.complete g = true <-> (db.winner g <> None \/ board_full (db.board g)).

(** What the stored rows of a game satisfy at all times: the game row
    keeps the board [create_game] gave it and never gets an outcome, the
    log alternates with the turn, every row carries the number 1, and the
    rows and the seats name the players. *)
Record consistent (st : db.Store) : Prop := {
  c_board : db.board (db.game st) = empty_board;
  c_open : db.complete (db.game st) = false;
  c_winner : db.winner (db.game st) = None;
  c_symbols :
    map db.symbol (db.moves st) = alternating (length (db.moves st));
  c_numbers :
    map db.move_number (db.moves st) = replicate (length (db.moves st)) 1%nat;
  c_turn : db.turn (db.game st) = nth_symbol (length (db.moves st));
  c_cells : forall m, m ∈ db.moves st ->
    db.game_id m = db.id (db.game st)
    /\ 0 <= db.x m < 3 /\ 0 <= db.y m < 3;
  c_players : forall m, m ∈ db.moves st ->
    exists p, db.player_id m = Some p
              /\ (db.symbol m = X <-> p = db.player_x_id (db.game st));
  c_seats : forall p, db.player_o_id (db.game st) = Some p ->
    p <> db.player_x_id (db.game st)
    /\ db.opponent_type (db.game st) = "human";
  c_pending :
    db.opponent_type (db.game st) = "human" ->
    db.player_o_id (db.game st) = None ->
    (length (db.moves st) <= 1)%nat
}.

(** The stored rows a game can reach: created by [create_game], then any
    number of [join_game] and [play_move] requests by any player, with any
    draw of the computer and any commit succeeding or failing. *)
Inductive reachable : db.Store -> Prop :=
  | reach_create game current_player new_id st :
      routes.create_game game current_player new_id = Ok st ->
      reachable st
  | reach_join commit_ok game_id current_player st :
      reachable st ->
      reachable (run (routes.join_game commit_ok game_id current_player) st).2
  | reach_move commit_ok game_id move current_player rnd st :
      reachable st ->
      reachable
        (run (routes.play_move commit_ok game_id move current_player rnd) st).2.

(** Requests [(player, x, y)] played in a row with every commit
    succeeding and the draw [rnd]; [None] as soon as one is not accepted. *)
Fixpoint play_sequence (st : db.Store) (reqs : list (Z * Z * Z)) (rnd : nat)
  : option db.Store :=
  match reqs with
  | [] => Some st
  | (cur, x, y) :: rest =>
      let r := run (routes.play_move all_ok (db.id (db.game st))
                      {| models.player_id := cur; models.x := x;
                         models.y := y |} cur rnd) st in
      match r.1 with
      | Ok _ => play_sequence r.2 rest rnd
      | Raise _ => None
      end
  end.

(** Player 1 creates game 7. *)
Definition new_game (opponent_type : string) : db.Store :=
  match routes.create_game
          {| models.player_x_id := 1; models.player_o_id := None;
             models.opponent_type := opponent_type |} 1 7 with
  | Ok st => st
  | Raise _ => {| db.game := {| db.id := 7; db.player_x_id := 1;
                                db.player_o_id := None; db.board := [];
                                db.turn := X; db.winner := None;
                                db.complete := false;
                                db.opponent_type := opponent_type |};
                  db.moves := [] |}
  end.

(** Player 2 joins it as O. *)
Definition joined_game : db.Store :=
  (run (routes.join_game all_ok 7 2) (new_game "human")).2.

(** The scenario of the top row: X(0,0), O(1,1), X(0,1), O(1,0), X(0,2). *)
Definition top_row_requests : list (Z * Z * Z) :=
  [(1, 0, 0); (2, 1, 1); (1, 0, 1); (2, 1, 0); (1, 0, 2)].

(** The stored rows at the end of that scenario. *)
Definition top_row_final : db.Store :=
  default joined_game (play_sequence joined_game top_row_requests 0).

(** The board of that scenario, as the five moves would leave it. *)
Definition top_row_board : Board :=
  [[Some X; Some X; Some X]; [Some O; Some O; None]; [None; None; None]].

(** A finished game as the data model describes it, written out: the
    five moves of that scenario on the board, numbered 1 to 5, X the
    winner.  The handlers do not reach such rows (see
    [reachable_consistent]); a [games] table can hold them. *)
Definition finished_game : db.Store :=
  {| db.game :=
       {| db.id := 7; db.player_x_id := 1; db.player_o_id := Some 2;
          db.board := top_row_board;
          db.turn := X; db.winner := Some (Won X); db.complete := true;
          db.opponent_type := "human" |};
     db.moves :=
       [{| db.game_id := 7; db.player_id := Some 1; db.x := 0; db.y := 0;
           db.symbol := X; db.move_number := 1 |};
        {| db.game_id := 7; db.player_id := Some 2; db.x := 1; db.y := 1;
           db.symbol := O; db.move_number := 2 |};
        {| db.game_id := 7; db.player_id := Some 1; db.x := 0; db.y := 1;
           db.symbol := X; db.move_number := 3 |};
        {| db.game_id := 7; db.player_id := Some 2; db.x := 1; db.y := 0;
           db.symbol := O; db.move_number := 4 |};
        {| db.game_id := 7; db.player_id := Some 1; db.x := 0; db.y := 2;
           db.symbol := X; db.move_number := 5 |}] |}.

(** The same game one move from its end, written out: X has two cells of
    the top row and the turn. *)
Definition two_in_a_row : db.Store :=
  {| db.game :=
       {| db.id := 7; db.player_x_id := 1; db.player_o_id := Some 2;
          db.board := [[Some X; Some X; None]; [Some O; Some O; None];
                       [None; None; None]];
          db.turn := X; db.winner := None; db.complete := false;
          db.opponent_type := "human" |};
     db.moves :=
       [{| db.game_id := 7; db.player_id := Some 1; db.x := 0; db.y := 0;
           db.symbol := X; db.move_number := 1 |};
        {| db.game_id := 7; db.player_id := Some 2; db.x := 1; db.y := 1;
           db.symbol := O; db.move_number := 2 |};
        {| db.game_id := 7; db.player_id := Some 1; db.x := 0; db.y := 1;
           db.symbol := X; db.move_number := 3 |};
        {| db.game_id := 7; db.player_id := Some 2; db.x := 1; db.y := 0;
           db.symbol := O; db.move_number := 4 |}] |}.

(** Player 1 asks for the third cell of the top row. *)
Definition winning_request : models.Move :=
  {| models.player_id := 1; models.x := 0; models.y := 2 |}.

(** Player 1 plays (0,0). *)
Definition first_request : models.Move :=
  {| models.player_id := 1; models.x := 0; models.y := 0 |}.

(** Player 1 opens a game against the computer and plays (0,0); the
    computer draws index 3 among the empty cells; the database accepts
    every commit. *)
Definition computer_reply : Result db.Game * db.Store :=
  run (routes.play_move all_ok 7 first_request 1 3) (new_game "computer").

(** The rows with the human's move alone: the log row and the turn, on
    the board of the new game. *)
Definition human_move_alone : db.Store :=
  {| db.game :=
       {| db.id := 7; db.player_x_id := 1; db.player_o_id := None;
          db.board := [[None; None; None]; [None; None; None];
                       [None; None; None]];
          db.turn := O; db.winner := None; db.complete := false;
          db.opponent_type := "computer" |};
     db.moves :=
       [{| db.game_id := 7; db.player_id := Some 1; db.x := 0; db.y := 0;
           db.symbol := X; db.move_number := 1 |}] |}.

(** Player 2, who takes no part in the game, asks for row 5. *)
Definition stranger_request : models.Move :=
  {| models.player_id := 2; models.x := 5; models.y := 0 |}.

(** A human game after the creator's first move, nobody having joined. *)
Definition waiting_for_o : db.Store :=
  (run (routes.play_move all_ok 7 first_request 1 0) (new_game "human")).2.

(** Persistence as one unit: when a move is accepted and the computer
    has to reply, the rows stored by the request are either none or the
    human's row followed by the computer's. *)
Definition stored_as_one_unit : Prop :=
  forall commit_ok game_id move current_player rnd st symbol,
    reachable st ->
    db.id (db.game st) = game_id ->
    validate (db.game st) current_player move = Ok symbol ->
    let g1 := (human_half (db.game st) game_id current_player move symbol).1 in
    let m1 := (human_half (db.game st) game_id current_player move symbol).2 in
    let out :=
      (run (routes.play_move commit_ok game_id move current_player rnd) st).2 in
    computer_to_move g1 = true ->
    out = st
    \/ exists m2, db.moves out = db.moves st ++ [m1; m2] /\ db.symbol m2 = O.

(** The order of validation as the specification lists it. *)
Definition rejects_in_spec_order : Prop :=
  forall commit_ok game_id move current_player rnd st e,
    reachable st ->
    db.id (db.game st) = game_id ->
    validate_spec_order (db.game st) current_player move = Raise e ->
    (run (routes.play_move commit_ok game_id move current_player rnd) st).1
    = Raise e.

(** A request is accepted when the handler returns a game. *)
Definition accepted {A : Type} (r : Result A * db.Store) : Prop :=
  exists a, r.1 = Ok a.

(** ** Vocabulary of the further properties *)

(** The [players] tables the account handlers reach from the empty table,
    the database giving each new row an id no row has. *)
Inductive accounts_reachable : list db.Player.t -> Prop :=
  | acc_empty : accounts_reachable []
  | acc_register user new_id password_hash commit_ok players :
      accounts_reachable players ->
      new_id ∉ (db.Player.id <$> players) ->
      accounts_reachable
        (routes.register user new_id password_hash commit_ok players).2
  | acc_update player_id update current_player password_hash commit_ok players :
      accounts_reachable players ->
      accounts_reachable
        (routes.update_player player_id update current_player password_hash
           commit_ok players).2.

(** The order of the leaderboard: [e1] may stand before [e2]. *)
Definition by_score (e1 e2 : models.LeaderboardEntry.t) : Prop :=
  (models.LeaderboardEntry.score e2 <= models.LeaderboardEntry.score e1)%nat.

(** The player [player_id] won the game [g]. *)
Definition won (g : db.Game) (player_id : Z) : Prop :=
  (db.player_x_id g = player_id /\ db.winner g = Some (Won X))
  \/ (db.player_o_id g = Some player_id /\ db.winner g = Some (Won O)).

(** ** The handlers, run *)

Lemma validate_Ok g cur mv s :
  validate g cur mv = Ok s <->
  db.complete g = false /\ resolve_symbol g cur = Some s /\ db.turn g = s
  /\ in_range mv = true /\ truthy (target (db.board g) mv) = false.
Proof.
  unfold validate.
  destruct (db.complete g);
    [split; [discriminate | intros (? & _); discriminate]|].
  destruct (resolve_symbol g cur) as [s'|];
    [|split; [discriminate | intros (_ & ? & _); discriminate]].
  destruct (bool_decide (db.turn g = s')) eqn:Ht; cbn [negb].
  - apply bool_decide_eq_true in Ht.
    destruct (in_range mv); cbn [negb];
      [|split; [discriminate | intros (_ & _ & _ & ? & _); discriminate]].
    destruct (truthy _);
      [split; [discriminate | intros (_ & _ & _ & _ & ?); discriminate]|].
    split; [intros [= <-]; auto | intros (_ & [= <-] & _); reflexivity].
  - apply bool_decide_eq_false in Ht.
    split; [discriminate | intros (_ & [= <-] & ? & _); contradiction].
Qed.

Section Run.

Variable commit_ok : nat -> bool.
Variables (game_id current_player : Z) (move : models.Move) (rnd : nat).
Variable st : db.Store.

Lemma play_move_not_found :
  db.id (db.game st) <> game_id ->
  run (routes.play_move commit_ok game_id move current_player rnd) st
  = (Raise routes.game_not_found, st).
Proof.
  intros Hid. unfold run, routes.play_move, mbind, M_bind, query_game_first.
  simpl. rewrite decide_False by done. reflexivity.
Qed.

Lemma play_move_rejected e :
  db.id (db.game st) = game_id ->
  validate (db.game st) current_player move = Raise e ->
  run (routes.play_move commit_ok game_id move current_player rnd) st
  = (Raise e, st).
Proof.
  intros Hid Hv. unfold run, routes.play_move, mbind, M_bind, query_game_first.
  simpl. rewrite decide_True by done.
  unfold validate, resolve_symbol, in_range, target in Hv.
  destruct (db.complete (db.game st)); [by inversion Hv|].
  unfold mret, M_ret, raise.
  repeat (case_match; simplify_eq/=; try done).
Qed.

Lemma play_move_accepted symbol :
  db.id (db.game st) = game_id ->
  validate (db.game st) current_player move = Ok symbol ->
  run (routes.play_move commit_ok game_id move current_player rnd) st
  = let g1 := (human_half (db.game st) game_id current_player move symbol).1 in
    let m1 := (human_half (db.game st) game_id current_player move symbol).2 in
    let st1 := with_move st g1 m1 in
    if commit_ok 0%nat then
      if computer_to_move g1 then
        match utils.generate_computer_move (db.board g1) rnd with
        | None => (Raise TypeError, st1)
        | Some _ => (Raise IntegrityError, st1)
        end
      else (Ok g1, st1)
    else (Raise OperationalError, st).
Proof.
  intros Hid Hv. apply validate_Ok in Hv as (Hc & Hres & Hturn & Hin & Hocc).
  unfold run, routes.play_move, mbind, M_bind, query_game_first.
  cbn [db.store db.game]. rewrite decide_True by done. rewrite Hc.
  unfold resolve_symbol in Hres.
  unfold in_range, target in *.
  assert (Hsym :
    (if bool_decide (db.player_x_id (db.game st) = current_player)
     then mret X
     else if bool_decide (db.player_o_id (db.game st) = Some current_player)
             || (bool_decide (db.opponent_type (db.game st) = "computer")
                 && bool_decide (db.player_o_id (db.game st) = None))
     then mret O else raise routes.not_your_game) = (mret symbol : M Symbol)).
  { destruct (bool_decide (db.player_x_id (db.game st) = current_player));
      [by inversion Hres|].
    destruct (_ || _); by inversion Hres. }
  rewrite Hsym. unfold mret, M_ret.
  rewrite Hturn, bool_decide_eq_true_2 by done.
  rewrite Hin, Hocc. cbn [negb].
  unfold db_add, db_commit, db_refresh, rolled_back.
  cbn [db.commits db.store db.added db.game db.moves app forallb
       db.insertable db.player_id negb andb].
  unfold human_half, placed, computer_to_move, with_move, other.
  cbn [fst snd db.move_number db.game db.moves].
  destruct (commit_ok 0%nat); [|done].
  cbn [db.commits db.store db.added db.game db.moves app].
  match goal with
  | |- context [bool_decide (db.opponent_type ?g = _) && _ && _] =>
      destruct (bool_decide (db.opponent_type g = "computer")
                && negb (db.complete g) && bool_decide (db.turn g = O))
  end; [|done].
  destruct (utils.generate_computer_move _ rnd) as [[cx cy]|]; [|done].
  cbn [db.commits db.store db.added db.game db.moves app forallb
       db.insertable db.player_id negb andb].
  done.
Qed.

End Run.

Lemma join_game_run commit_ok game_id current_player st :
  let r := run (routes.join_game commit_ok game_id current_player) st in
  (exists e, r = (Raise e, st))
  \/ (db.id (db.game st) = game_id
      /\ db.opponent_type (db.game st) = "human"
      /\ db.player_x_id (db.game st) <> current_player
      /\ (db.player_o_id (db.game st) = None
          \/ db.player_o_id (db.game st) = Some 0)
      /\ commit_ok 0%nat = true
      /\ r = (Ok (db.set_player_o_id (db.game st) (Some current_player)),
              {| db.game := db.set_player_o_id (db.game st) (Some current_player);
                 db.moves := db.moves st |})).
Proof.
  unfold run, routes.join_game, mbind, M_bind, query_game_first, raise.
  cbn [db.store db.game].
  destruct (decide (db.id (db.game st) = game_id)) as [Hid|Hid]; [|by eauto].
  destruct (bool_decide (db.opponent_type (db.game st) = "human")) eqn:Hh;
    cbn [negb]; [|by eauto].
  destruct (bool_decide (db.player_x_id (db.game st) = current_player)) eqn:Hx;
    [by eauto|].
  apply bool_decide_eq_true in Hh. apply bool_decide_eq_false in Hx.
  assert (Hfalsy : forall o : option Z,
            match o with Some p => negb (bool_decide (p = 0)) | None => false end
            = false -> o = None \/ o = Some 0).
  { intros [p|] Hp; [right|by left].
    destruct (bool_decide (p = 0)) eqn:E; [|done].
    apply bool_decide_eq_true in E. by subst. }
  destruct (match db.player_o_id (db.game st) with
            | Some p => negb (bool_decide (p = 0)) | None => false end) eqn:Ho;
    [by eauto|].
  apply Hfalsy in Ho.
  unfold db_commit, db_refresh. cbn [db.commits db.store db.added db.game].
  destruct (commit_ok 0%nat) eqn:Hk; cbn [fst snd]; [|by eauto].
  right. rewrite app_nil_r. done.
Qed.

(** ** Boards *)

Lemma wf_board_inv (b : Board) :
  wf_board b ->
  exists c00 c01 c02 c10 c11 c12 c20 c21 c22 : cell,
    b = [[c00; c01; c02]; [c10; c11; c12]; [c20; c21; c22]].
Proof.
  intros [Hlen Hrows].
  destruct b as [|r0 [|r1 [|r2 [|? ?]]]]; try discriminate Hlen.
  apply Forall_cons in Hrows as [H0 Hrows].
  apply Forall_cons in Hrows as [H1 Hrows].
  apply Forall_cons in Hrows as [H2 _].
  destruct r0 as [|? [|? [|? [|? ?]]]]; try discriminate H0.
  destruct r1 as [|? [|? [|? [|? ?]]]]; try discriminate H1.
  destruct r2 as [|? [|? [|? [|? ?]]]]; try discriminate H2.
  by repeat eexists.
Qed.

Lemma wf_grid (c00 c01 c02 c10 c11 c12 c20 c21 c22 : cell) :
  wf_board [[c00; c01; c02]; [c10; c11; c12]; [c20; c21; c22]].
Proof. split; [done | by repeat constructor]. Qed.

Ltac grid b H :=
  let c00 := fresh "c00" in let c01 := fresh "c01" in let c02 := fresh "c02" in
  let c10 := fresh "c10" in let c11 := fresh "c11" in let c12 := fresh "c12" in
  let c20 := fresh "c20" in let c21 := fresh "c21" in let c22 := fresh "c22" in
  destruct (wf_board_inv b H)
    as (c00 & c01 & c02 & c10 & c11 & c12 & c20 & c21 & c22 & ->).

Ltac index3 i H :=
  destruct i as [|[|[|i]]]; [| | |exfalso; lia].

Lemma wf_empty_board : wf_board empty_board.
Proof. apply wf_grid. Qed.

Lemma set_cell_wf b i j v : wf_board b -> wf_board (set_cell b i j v).
Proof.
  intros H. grid b H.
  destruct i as [|[|[|i]]]; destruct j as [|[|[|j]]]; apply wf_grid.
Qed.

Lemma count_occupied_grid (c00 c01 c02 c10 c11 c12 c20 c21 c22 : cell) :
  routes.count_occupied [[c00; c01; c02]; [c10; c11; c12]; [c20; c21; c22]]
  = (occ c00 + occ c01 + occ c02 + occ c10 + occ c11 + occ c12
     + occ c20 + occ c21 + occ c22)%nat.
Proof.
  destruct c00, c01, c02, c10, c11, c12, c20, c21, c22; reflexivity.
Qed.

Lemma full_iff_no_empty b :
  wf_board b -> utils.is_board_full b = true <-> utils.empty_cells b = [].
Proof.
  intros H. grid b H.
  destruct c00, c01, c02, c10, c11, c12, c20, c21, c22; by vm_compute.
Qed.

Lemma range3x3_eq :
  utils.range3x3
  = [(0, 0); (0, 1); (0, 2); (1, 0); (1, 1); (1, 2); (2, 0); (2, 1); (2, 2)]%nat.
Proof. reflexivity. Qed.

Lemma elem_of_empty_cells b i j :
  (i, j) ∈ utils.empty_cells b ->
  (i < 3)%nat /\ (j < 3)%nat /\ cell_at b i j = None.
Proof.
  unfold utils.empty_cells. rewrite list_elem_of_filter. cbn [fst snd].
  intros [Hc Hin].
  assert (cell_at b i j = None) as ->.
  { destruct (cell_at b i j); [discriminate Hc | done]. }
  rewrite range3x3_eq in Hin.
  repeat (apply elem_of_cons in Hin as [[= -> ->]|Hin];
          [repeat split; (lia || reflexivity)|]).
  by apply elem_of_nil in Hin.
Qed.

Lemma generate_computer_move_Some b rnd cx cy :
  utils.generate_computer_move b rnd = Some (cx, cy) ->
  (cx, cy) ∈ utils.empty_cells b.
Proof.
  unfold utils.generate_computer_move.
  destruct (utils.empty_cells b) as [|c cs]; [discriminate|].
  apply list_elem_of_lookup_2.
Qed.

Lemma generate_computer_move_None b rnd :
  utils.generate_computer_move b rnd = None <-> utils.empty_cells b = [].
Proof.
  unfold utils.generate_computer_move.
  destruct (utils.empty_cells b) as [|c cs]; [done|].
  split; [|discriminate]. intros Hn. apply lookup_ge_None in Hn.
  pose proof (Nat.mod_upper_bound rnd (length (c :: cs))) as Hlt.
  cbn [length] in *. lia.
Qed.

(** ** The win detector *)

Lemma forallb_seq3 (P : nat -> Prop) `{!forall i, Decision (P i)} :
  forallb (fun i => bool_decide (P i)) (seq 0 3) = true
  <-> forall i, (i < 3)%nat -> P i.
Proof.
  cbn [seq forallb]. rewrite !andb_true_iff, !bool_decide_eq_true.
  split.
  - intros (P0 & P1 & P2 & _) i Hi.
    destruct i as [|[|[|i]]]; [done | done | done | lia].
  - intros HP. repeat split; apply HP; lia.
Qed.

Lemma existsb_seq3 (f : nat -> bool) :
  existsb f (seq 0 3) = true <-> exists i, (i < 3)%nat /\ f i = true.
Proof.
  cbn [seq existsb]. rewrite !orb_true_iff. split.
  - intros [Hf|[Hf|[Hf|Hf]]];
      [exists 0%nat | exists 1%nat | exists 2%nat | done];
      (split; [lia | done]).
  - intros (i & Hi & Hf).
    destruct i as [|[|[|i]]]; [tauto | tauto | tauto | lia].
Qed.

Lemma has_line_spec b s : has_line b s = true <-> line_of b s.
Proof.
  unfold has_line, line_of.
  rewrite !orb_true_iff, !existsb_seq3, !forallb_seq3.
  setoid_rewrite forallb_seq3. tauto.
Qed.

Lemma returns_symbol_has_line b s :
  wf_board b -> utils.returns_symbol b s = has_line b s.
Proof.
  intros H. grid b H.
  cbv [utils.returns_symbol has_line utils.scan_lines utils.row_all
       utils.col_all utils.diag_all utils.anti_all forallb existsb seq
       cell_at lookup list_lookup default from_option id Nat.sub].
  generalize (bool_decide (c00 = Some s)), (bool_decide (c01 = Some s)),
    (bool_decide (c02 = Some s)), (bool_decide (c10 = Some s)),
    (bool_decide (c11 = Some s)), (bool_decide (c12 = Some s)),
    (bool_decide (c20 = Some s)), (bool_decide (c21 = Some s)),
    (bool_decide (c22 = Some s)).
  intros [] [] [] [] [] [] [] [] []; reflexivity.
Qed.

Lemma check_winner_Some b s :
  wf_board b -> utils.check_winner b = Some s -> line_of b s.
Proof.
  intros H. unfold utils.check_winner, utils.first_symbol.
  destruct (utils.returns_symbol b X) eqn:Ex.
  - intros [= <-]. apply has_line_spec. by rewrite <- returns_symbol_has_line.
  - destruct (utils.returns_symbol b O) eqn:Eo; [|discriminate].
    intros [= <-]. apply has_line_spec. by rewrite <- returns_symbol_has_line.
Qed.

Lemma check_winner_None b :
  wf_board b ->
  utils.check_winner b = None <-> ~ line_of b X /\ ~ line_of b O.
Proof.
  intros H. unfold utils.check_winner, utils.first_symbol.
  rewrite <- !has_line_spec, <- !returns_symbol_has_line by done.
  destruct (utils.returns_symbol b X), (utils.returns_symbol b O);
    split; try discriminate; try done; intros [? ?]; congruence.
Qed.

(** ** What one request stores *)

Lemma alternating_S n : alternating (S n) = alternating n ++ [nth_symbol n].
Proof. unfold alternating. by rewrite seq_S, map_app. Qed.

Lemma in_range_bounds mv :
  in_range mv = true ->
  (Z.to_nat (models.x mv) < 3)%nat /\ (Z.to_nat (models.y mv) < 3)%nat.
Proof. unfold in_range. rewrite !andb_true_iff. lia. Qed.

Lemma in_range_Z mv :
  in_range mv = true -> 0 <= models.x mv < 3 /\ 0 <= models.y mv < 3.
Proof. unfold in_range. rewrite !andb_true_iff. lia. Qed.

(** A board with one symbol has no line, is not full and counts one
    occupied cell. *)
Lemma first_move_open i j s :
  (i < 3)%nat -> (j < 3)%nat ->
  utils.check_winner (set_cell empty_board i j (Some s)) = None
  /\ utils.is_board_full (set_cell empty_board i j (Some s)) = false
  /\ routes.count_occupied (set_cell empty_board i j (Some s)) = 1%nat.
Proof.
  intros Hi Hj. index3 i Hi; index3 j Hj; destruct s; by vm_compute.
Qed.

Lemma resolve_symbol_X g cur s :
  resolve_symbol g cur = Some s -> (s = X <-> cur = db.player_x_id g).
Proof.
  unfold resolve_symbol.
  destruct (bool_decide (db.player_x_id g = cur)) eqn:E.
  - apply bool_decide_eq_true in E. intros [= <-]. done.
  - apply bool_decide_eq_false in E.
    destruct (_ || _); [|discriminate]. intros [= <-].
    split; [discriminate | congruence].
Qed.

Lemma resolve_symbol_pending g cur s :
  db.opponent_type g = "human" -> db.player_o_id g = None ->
  resolve_symbol g cur = Some s -> s = X /\ db.player_x_id g = cur.
Proof.
  intros Hh Hn. unfold resolve_symbol. rewrite Hh, Hn.
  destruct (bool_decide (db.player_x_id g = cur)) eqn:E.
  - apply bool_decide_eq_true in E. by intros [= <-].
  - by vm_compute.
Qed.

(** The first commit writes no column but [turn], [winner] and
    [complete]. *)
Lemma human_half_fields g game_id current_player move symbol :
  let g1 := (human_half g game_id current_player move symbol).1 in
  db.id g1 = db.id g /\ db.player_x_id g1 = db.player_x_id g
  /\ db.player_o_id g1 = db.player_o_id g
  /\ db.opponent_type g1 = db.opponent_type g
  /\ db.board g1 = db.board g.
Proof.
  unfold human_half, flushed, routes.settle. cbn [fst].
  destruct (utils.check_winner _); [done|].
  destruct (utils.is_board_full _); done.
Qed.

Lemma human_half_outcome g game_id current_player move symbol :
  db.complete g = false -> db.winner g = None ->
  let g1 := (human_half g game_id current_player move symbol).1 in
  match utils.check_winner (placed g move symbol) with
  | Some w => db.complete g1 = true /\ db.winner g1 = Some (Won w)
              /\ db.turn g1 = db.turn g
  | None =>
      if utils.is_board_full (placed g move symbol)
      then db.complete g1 = true /\ db.winner g1 = Some Draw
           /\ db.turn g1 = db.turn g
      else db.complete g1 = false /\ db.winner g1 = None
           /\ db.turn g1 = other symbol
  end.
Proof.
  intros Hc Hw. unfold human_half, flushed, routes.settle. cbn [fst].
  destruct (utils.check_winner _); [done|].
  destruct (utils.is_board_full _); done.
Qed.

(** On the board of a new game the first commit passes the turn and
    numbers the row 1, whatever the cell. *)
Lemma human_half_new_board g game_id current_player move symbol :
  db.board g = empty_board -> db.complete g = false ->
  in_range move = true ->
  human_half g game_id current_player move symbol
  = (db.set_turn g (other symbol),
     {| db.game_id := game_id; db.player_id := Some current_player;
        db.x := models.x move; db.y := models.y move; db.symbol := symbol;
        db.move_number := 1%nat |}).
Proof.
  intros Hb Hc Hin. destruct (in_range_bounds _ Hin) as [Hi Hj].
  destruct (first_move_open _ _ symbol Hi Hj) as (Hw & Hf & Hn).
  unfold human_half, placed, flushed, routes.settle.
  rewrite Hb, Hw, Hf, Hn. f_equal.
  destruct g; cbn in *. by subst.
Qed.

Lemma human_half_consistent st game_id current_player move symbol :
  consistent st ->
  db.id (db.game st) = game_id ->
  validate (db.game st) current_player move = Ok symbol ->
  consistent
    (with_move st
       (human_half (db.game st) game_id current_player move symbol).1
       (human_half (db.game st) game_id current_player move symbol).2).
Proof.
  intros [Hb Hc Hw Hsym Hnum Hturn Hcells Hpl Hseats Hpend] Hid
         (_ & Hres & Ht & Hin & _)%validate_Ok.
  rewrite human_half_new_board by done. cbn [fst snd].
  split; unfold with_move; cbn [db.game db.moves db.set_turn db.board
    db.complete db.winner db.turn db.id db.player_x_id db.player_o_id
    db.opponent_type]; try done.
  - rewrite map_app, length_app, Hsym. cbn [map length].
    rewrite Nat.add_1_r, alternating_S. cbn [db.symbol]. congruence.
  - rewrite map_app, length_app, Hnum. cbn [map length].
    by rewrite Nat.add_1_r, replicate_S_end.
  - rewrite length_app. cbn [length]. rewrite Nat.add_1_r.
    rewrite <- Ht, Hturn. unfold nth_symbol, other.
    rewrite Nat.even_succ, <- Nat.negb_even.
    by destruct (Nat.even (length (db.moves st))).
  - intros m [Hm|Hm]%elem_of_app; [by apply Hcells|].
    apply list_elem_of_singleton in Hm as ->. cbn [db.game_id db.x db.y].
    split; [done|]. by apply in_range_Z.
  - intros m [Hm|Hm]%elem_of_app; [by apply Hpl|].
    apply list_elem_of_singleton in Hm as ->.
    exists current_player. cbn [db.player_id db.symbol].
    split; [done|]. by apply resolve_symbol_X.
  - intros Hh Hn.
    destruct (resolve_symbol_pending _ _ _ Hh Hn Hres) as [-> _].
    specialize (Hpend Hh Hn). rewrite length_app. cbn [length].
    destruct (db.moves st) as [|m0 [|m1 l]]; [done| |cbn in Hpend; lia].
    rewrite Hturn in Ht. discriminate Ht.
Qed.

(** The second commit always fails: what a request stores is the
    human's half or nothing. *)
Lemma play_move_stores commit_ok game_id move current_player rnd st :
  let out :=
    (run (routes.play_move commit_ok game_id move current_player rnd) st).2 in
  out = st
  \/ exists symbol,
       db.id (db.game st) = game_id
       /\ validate (db.game st) current_player move = Ok symbol
       /\ commit_ok 0%nat = true
       /\ out = with_move st
            (human_half (db.game st) game_id current_player move symbol).1
            (human_half (db.game st) game_id current_player move symbol).2.
Proof.
  cbv zeta.
  destruct (decide (db.id (db.game st) = game_id)) as [Hid|Hid];
    [|left; by rewrite play_move_not_found].
  destruct (validate (db.game st) current_player move) as [symbol|e] eqn:Hv;
    [|left; by rewrite (play_move_rejected _ _ _ _ _ _ e)].
  rewrite (play_move_accepted _ _ _ _ _ _ symbol) by done. cbv zeta.
  destruct (commit_ok 0%nat) eqn:Hk; [|by left].
  right. exists symbol. do 3 (split; [done|]).
  destruct (computer_to_move _); [|done].
  by destruct (utils.generate_computer_move _ rnd).
Qed.

Lemma play_move_accepted_store commit_ok game_id move current_player rnd st
    symbol :
  db.id (db.game st) = game_id ->
  validate (db.game st) current_player move = Ok symbol ->
  commit_ok 0%nat = true ->
  (run (routes.play_move commit_ok game_id move current_player rnd) st).2
  = with_move st
      (human_half (db.game st) game_id current_player move symbol).1
      (human_half (db.game st) game_id current_player move symbol).2.
Proof.
  intros Hid Hv Hok.
  rewrite (play_move_accepted _ _ _ _ _ _ symbol) by done. cbv zeta.
  rewrite Hok. destruct (computer_to_move _); [|done].
  by destruct (utils.generate_computer_move _ rnd).
Qed.

Lemma play_move_consistent commit_ok game_id move current_player rnd st :
  consistent st ->
  consistent
    (run (routes.play_move commit_ok game_id move current_player rnd) st).2.
Proof.
  intros Hst.
  destruct (play_move_stores commit_ok game_id move current_player rnd st)
    as [->|(symbol & Hid & Hv & _ & ->)]; [done|].
  by apply human_half_consistent.
Qed.

Lemma join_game_consistent commit_ok game_id current_player st :
  consistent st ->
  consistent (run (routes.join_game commit_ok game_id current_player) st).2.
Proof.
  intros Hst.
  destruct (join_game_run commit_ok game_id current_player st)
    as [[e ->]|(_ & Hh & Hx & _ & _ & ->)]; [done|].
  destruct Hst as [Hb Hc Hw Hsym Hnum Hturn Hcells Hpl Hseats Hpend].
  split; cbn [snd db.game db.moves db.set_player_o_id db.board db.complete
              db.winner db.turn db.id db.player_x_id db.player_o_id
              db.opponent_type]; try done.
  intros p [= <-]. split; [congruence | done].
Qed.

Lemma create_game_consistent game current_player new_id st :
  routes.create_game game current_player new_id = Ok st -> consistent st.
Proof.
  unfold routes.create_game. destruct (_ || _); [|discriminate].
  intros [= <-]. split; cbn [db.game db.moves db.board db.complete db.turn
                              db.winner db.player_o_id length]; try done.
  - intros m Hm. by apply elem_of_nil in Hm.
  - intros m Hm. by apply elem_of_nil in Hm.
  - intros _ _. lia.
Qed.

Lemma reachable_consistent st : reachable st -> consistent st.
Proof.
  induction 1 as [game cur nid st Hc | | ].
  - by eapply create_game_consistent.
  - by apply join_game_consistent.
  - by apply play_move_consistent.
Qed.

Lemma reachable_wf st : reachable st -> wf_board (db.board (db.game st)).
Proof.
  intros H. rewrite (c_board _ (reachable_consistent _ H)).
  apply wf_empty_board.
Qed.

Lemma play_sequence_reachable reqs rnd : forall st st',
  reachable st -> play_sequence st reqs rnd = Some st' -> reachable st'.
Proof.
  induction reqs as [|[[cur x] y] rest IH]; intros st st' Hst; cbn [play_sequence].
  - by intros [= <-].
  - cbv zeta. destruct (run _ st).1 eqn:E; [|discriminate].
    apply IH. by apply reach_move.
Qed.

Lemma new_game_reachable ty :
  ty = "human" \/ ty = "computer" -> reachable (new_game ty).
Proof.
  intros Hty.
  apply (reach_create {| models.player_x_id := 1; models.player_o_id := None;
                         models.opponent_type := ty |} 1 7).
  unfold new_game. by destruct Hty as [-> | ->].
Qed.

Lemma joined_game_reachable : reachable joined_game.
Proof. apply reach_join, new_game_reachable. by left. Qed.

Lemma top_row_final_reachable : reachable top_row_final.
Proof.
  apply (play_sequence_reachable top_row_requests 0 joined_game);
    [apply joined_game_reachable | by vm_compute].
Qed.

(** ** The cells of the board *)

Lemma empty_cell_listed b i j :
  (i < 3)%nat -> (j < 3)%nat -> cell_at b i j = None ->
  (i, j) ∈ utils.empty_cells b.
Proof.
  intros Hi Hj Hc. unfold utils.empty_cells. apply list_elem_of_filter.
  cbn [fst snd]. rewrite Hc. split; [done|]. rewrite range3x3_eq.
  index3 i Hi; index3 j Hj; rewrite !elem_of_cons; tauto.
Qed.

Lemma is_board_full_spec b :
  wf_board b -> utils.is_board_full b = true <-> board_full b.
Proof.
  intros Hwf. rewrite full_iff_no_empty by done. split.
  - intros Hnone i j Hi Hj Hc.
    pose proof (empty_cell_listed b i j Hi Hj Hc) as Hin.
    rewrite Hnone in Hin. by apply elem_of_nil in Hin.
  - intros Hall. destruct (utils.empty_cells b) as [|[i j] cs] eqn:E; [done|].
    assert (Hin : (i, j) ∈ utils.empty_cells b) by (rewrite E; left).
    apply elem_of_empty_cells in Hin as (Hi & Hj & Hc).
    by destruct (Hall i j Hi Hj).
Qed.

(** A board with an empty cell in range gives the computer a move. *)
Lemma empty_cell_gives_move b rnd i j :
  (i < 3)%nat -> (j < 3)%nat -> cell_at b i j = None ->
  exists cx cy, utils.generate_computer_move b rnd = Some (cx, cy).
Proof.
  intros Hi Hj Hc.
  destruct (utils.generate_computer_move b rnd) as [[cx cy]|] eqn:E;
    [by eauto|].
  apply generate_computer_move_None in E.
  pose proof (empty_cell_listed b i j Hi Hj Hc) as Hin.
  rewrite E in Hin. by apply elem_of_nil in Hin.
Qed.

Lemma validated_cell_is_empty g current_player move symbol :
  validate g current_player move = Ok symbol ->
  (Z.to_nat (models.x move) < 3)%nat /\ (Z.to_nat (models.y move) < 3)%nat
  /\ cell_at (db.board g) (Z.to_nat (models.x move))
             (Z.to_nat (models.y move)) = None.
Proof.
  intros (_ & _ & _ & Hin & Hocc)%validate_Ok.
  destruct (in_range_bounds _ Hin) as [Hi Hj]. do 2 (split; [done|]).
  unfold target in Hocc. by destruct (cell_at _ _ _).
Qed.

(** A request whose human half leaves the computer to move ends in the
    [IntegrityError] of the computer's row, with the human's half stored:
    the board the computer reads is the stored one, on which the cell of
    the request is still empty. *)
Lemma computer_branch_raises commit_ok game_id move current_player rnd st
    symbol :
  db.id (db.game st) = game_id ->
  validate (db.game st) current_player move = Ok symbol ->
  commit_ok 0%nat = true ->
  computer_to_move
    (human_half (db.game st) game_id current_player move symbol).1 = true ->
  run (routes.play_move commit_ok game_id move current_player rnd) st
  = (Raise IntegrityError,
     with_move st
       (human_half (db.game st) game_id current_player move symbol).1
       (human_half (db.game st) game_id current_player move symbol).2).
Proof.
  intros Hid Hv Hok Hcm.
  rewrite (play_move_accepted _ _ _ _ _ _ symbol) by done. cbv zeta.
  rewrite Hok, Hcm.
  destruct (validated_cell_is_empty _ _ _ _ Hv) as (Hi & Hj & Hcell).
  pose proof (human_half_fields (db.game st) game_id current_player move
                symbol) as (_ & _ & _ & _ & Hb).
  cbv zeta in Hb. rewrite Hb.
  by destruct (empty_cell_gives_move _ rnd _ _ Hi Hj Hcell) as (cx & cy & ->).
Qed.

Lemma play_move_no_TypeError commit_ok game_id move current_player rnd st :
  (run (routes.play_move commit_ok game_id move current_player rnd) st).1
  <> Raise TypeError.
Proof.
  destruct (decide (db.id (db.game st) = game_id)) as [Hid|Hid];
    [|by rewrite play_move_not_found].
  destruct (validate (db.game st) current_player move) as [symbol|e] eqn:Hv.
  - rewrite (play_move_accepted _ _ _ _ _ _ symbol) by done. cbv zeta.
    destruct (commit_ok 0%nat); [|done].
    destruct (computer_to_move _) eqn:Hcm; [|done].
    destruct (validated_cell_is_empty _ _ _ _ Hv) as (Hi & Hj & Hcell).
    pose proof (human_half_fields (db.game st) game_id current_player move
                  symbol) as (_ & _ & _ & _ & Hb).
    cbv zeta in Hb. rewrite Hb.
    by destruct (empty_cell_gives_move _ rnd _ _ Hi Hj Hcell)
      as (cx & cy & ->).
  - rewrite (play_move_rejected _ _ _ _ _ _ e) by done. cbn [fst].
    unfold validate in Hv. intros [= ->].
    repeat (case_match; try discriminate).
Qed.

(** ** Cells under an assignment *)

Lemma cell_at_set_cell_ne b i j v i' j' :
  (i, j) <> (i', j') ->
  cell_at (set_cell b i j v) i' j' = cell_at b i' j'.
Proof.
  intros Hne. unfold cell_at, set_cell, Board in *.
  destruct (decide (i = i')) as [<-|Hi].
  - rewrite list_lookup_alter_eq. destruct (b !! i) as [row|]; [|done].
    cbn [fmap option_fmap option_map].
    rewrite list_lookup_insert_ne by congruence. done.
  - by rewrite list_lookup_alter_ne.
Qed.

Lemma cell_at_set_cell_eq b i j v :
  wf_board b -> (i < 3)%nat -> (j < 3)%nat ->
  cell_at (set_cell b i j v) i j = v.
Proof.
  intros H Hi Hj. grid b H. index3 i Hi; index3 j Hj; reflexivity.
Qed.

(** A symbol placed on the board stays: later placements set cells, they
    never clear one. *)
Lemma place_keeps_occupied b m i j :
  cell_at b i j <> None -> cell_at (place b m) i j <> None.
Proof.
  intros Hc. unfold place.
  destruct (decide ((Z.to_nat (db.x m), Z.to_nat (db.y m)) = (i, j)))
    as [[= <- <-]|Hne]; [|by rewrite cell_at_set_cell_ne].
  revert Hc. unfold cell_at, set_cell, Board in *.
  rewrite list_lookup_alter_eq.
  destruct (b !! Z.to_nat (db.x m)) as [row|]; [|done].
  cbn [fmap option_fmap option_map].
  destruct (row !! Z.to_nat (db.y m)) as [c|] eqn:E; [|done].
  intros _. rewrite list_lookup_insert_eq; [done|].
  by apply lookup_lt_Some in E.
Qed.

Lemma replay_keeps_occupied l : forall b i j,
  cell_at b i j <> None -> cell_at (foldl place b l) i j <> None.
Proof.
  induction l as [|m l IH]; intros b i j Hc; [done|].
  cbn [foldl]. by apply IH, place_keeps_occupied.
Qed.

(** ** Sorting the move rows *)

Lemma insert_move_perm m l : insert_move m l ≡ₚ m :: l.
Proof.
  induction l as [|h t IH]; [done|]. cbn [insert_move].
  destruct (_ <=? _)%nat; [done|]. rewrite IH. apply Permutation_swap.
Qed.

Lemma by_move_number_perm l : by_move_number l ≡ₚ l.
Proof.
  induction l as [|m l IH]; [done|].
  cbn [by_move_number foldr]. fold (by_move_number l).
  by rewrite insert_move_perm, IH.
Qed.

(** The replay of a log that is not empty and whose rows are in range
    has an occupied cell. *)
Lemma replay_not_empty l :
  l <> [] ->
  (forall m, m ∈ l -> 0 <= db.x m < 3 /\ 0 <= db.y m < 3) ->
  replay l <> empty_board.
Proof.
  destruct l as [|h t]; [done|]. intros _ Hin Heq.
  destruct (Hin h) as [Hx Hy]; [by left|].
  assert (Hc : cell_at (replay (h :: t)) (Z.to_nat (db.x h))
                       (Z.to_nat (db.y h)) <> None).
  { unfold replay. cbn [foldl]. apply replay_keeps_occupied. unfold place.
    rewrite cell_at_set_cell_eq; [done|apply wf_empty_board|lia|lia]. }
  rewrite Heq in Hc. apply Hc.
  assert (Hi : (Z.to_nat (db.x h) < 3)%nat) by lia.
  assert (Hj : (Z.to_nat (db.y h) < 3)%nat) by lia.
  revert Hi Hj. generalize (Z.to_nat (db.x h)), (Z.to_nat (db.y h)).
  intros i j Hi Hj. index3 i Hi; index3 j Hj; reflexivity.
Qed.

(** * The claims *)

Lemma open_game g :
  complete_inv g -> db.complete g = false ->
  db.winner g = None /\ ~ board_full (db.board g).
Proof.
  intros Hi Hc. split.
  - destruct (db.winner g) eqn:E; [|done].
    assert (db.complete g = true) by (apply Hi; left; congruence). congruence.
  - intros Hfull.
    assert (db.complete g = true) by (apply Hi; by right). congruence.
Qed.

Lemma empty_board_not_full : ~ board_full empty_board.
Proof. intros H. by apply (H 0%nat 0%nat); [lia|lia|]. Qed.

Lemma human_half_complete_inv g game_id current_player move symbol :
  complete_inv g -> db.complete g = false ->
  complete_inv (human_half g game_id current_player move symbol).1.
Proof.
  intros Hinv Hc. destruct (open_game _ Hinv Hc) as [Hw Hfull].
  pose proof (human_half_fields g game_id current_player move symbol)
    as (_ & _ & _ & _ & Hb).
  pose proof (human_half_outcome g game_id current_player move symbol Hc Hw)
    as Ho.
  cbv zeta in *. unfold complete_inv. rewrite Hb.
  destruct (utils.check_winner _).
  - destruct Ho as (-> & -> & _). split; [by left | done].
  - destruct (utils.is_board_full _).
    + destruct Ho as (-> & -> & _). split; [by left | done].
    + destruct Ho as (-> & -> & _). split; [done | intros [?|?]; done].
Qed.

Lemma play_move_complete_inv commit_ok game_id move current_player rnd st :
  complete_inv (db.game st) ->
  complete_inv
    (db.game
       (run (routes.play_move commit_ok game_id move current_player rnd) st).2).
Proof.
  intros Hinv.
  destruct (play_move_stores commit_ok game_id move current_player rnd st)
    as [->|(symbol & Hid & Hv & _ & ->)]; [done|].
  apply validate_Ok in Hv as (Hc & _).
  by apply human_half_complete_inv.
Qed.

Lemma join_game_complete_inv commit_ok game_id current_player st :
  complete_inv (db.game st) ->
  complete_inv
    (db.game (run (routes.join_game commit_ok game_id current_player) st).2).
Proof.
  intros Hinv.
  by destruct (join_game_run commit_ok game_id current_player st)
    as [[e ->]|(_ & _ & _ & _ & _ & ->)].
Qed.

Lemma consistent_complete_inv st : consistent st -> complete_inv (db.game st).
Proof.
  intros Hst. unfold complete_inv.
  rewrite (c_open _ Hst), (c_winner _ Hst), (c_board _ Hst).
  split; [discriminate|]. intros [?|?]; [done|].
  by destruct empty_board_not_full.
Qed.

(** What the first commit of an accepted move writes in [complete] and
    [winner]: the game is complete exactly when the board the handler
    placed the symbol on has a line or no empty cell, and exactly then a
    winner is recorded. *)
Lemma human_half_completes g game_id current_player move symbol :
  wf_board (db.board g) -> db.complete g = false -> db.winner g = None ->
  let g1 := (human_half g game_id current_player move symbol).1 in
  let b1 := placed g move symbol in
  (db.complete g1 = true <-> line_of b1 X \/ line_of b1 O \/ board_full b1)
  /\ (db.complete g1 = true <-> db.winner g1 <> None).
Proof.
  intros Hwf Hc Hw.
  pose proof (human_half_outcome g game_id current_player move symbol Hc Hw)
    as Ho.
  assert (Hwf1 : wf_board (placed g move symbol)) by by apply set_cell_wf.
  pose proof (check_winner_Some _ X Hwf1) as HX.
  pose proof (check_winner_Some _ O Hwf1) as HO.
  pose proof (check_winner_None _ Hwf1) as HN.
  pose proof (is_board_full_spec _ Hwf1) as HF.
  cbv zeta in *.
  destruct (utils.check_winner _) as [[]|].
  - destruct Ho as (-> & -> & _). split; (split; [|done]); intros _; auto.
  - destruct Ho as (-> & -> & _). split; (split; [|done]); intros _; auto.
  - destruct HN as [HN _]. destruct (HN eq_refl) as [HnX HnO].
    destruct (utils.is_board_full _).
    + destruct Ho as (-> & -> & _). split; (split; [|done]); intros _;
        [right; right; by apply HF | done].
    + destruct Ho as (-> & -> & _). split; (split; [done|]).
      * intros [?|[?|Hfull]]; [done|done|]. apply HF in Hfull. done.
      * intros ?. done.
Qed.

(** From rows that hold two X's of the top row, the third X completes
    the game: the commit writes the winner and [complete], and leaves the
    board as it was. *)
Lemma winning_move_completes :
  complete_inv (db.game two_in_a_row)
  /\ run (routes.play_move all_ok 7 winning_request 1 0) two_in_a_row
     = (Ok (db.set_complete
              (db.set_winner (db.game two_in_a_row) (Some (Won X))) true),
        {| db.game :=
             db.set_complete
               (db.set_winner (db.game two_in_a_row) (Some (Won X))) true;
           db.moves :=
             db.moves two_in_a_row
             ++ [{| db.game_id := 7; db.player_id := Some 1; db.x := 0;
                    db.y := 2; db.symbol := X; db.move_number := 5 |}] |}).
Proof.
  split; [|reflexivity]. split; [discriminate|].
  intros [?|Hfull]; [done|]. exfalso.
  by apply (Hfull 0%nat 2%nat); [lia|lia|].
Qed.

(** C1. [complete] is true exactly when [winner] is set or no cell of
    the board is empty.  The invariant holds for every game [create_game]
    returns; every [play_move] and every [join_game] request keeps it,
    from whatever stored rows with a 3x3 board that satisfy it; so it
    holds for the stored rows of every reachable game.  An accepted move
    sets [complete] exactly when the board it placed its symbol on has a
    line or no empty cell, and records a winner exactly then.  A complete
    game rejects every move request with the finished-game error (400,
    "Game is complete, winner: ...") and keeps its rows as they are. *)
Theorem complete_invariant_and_absorbing (st : db.Store)
    (Hwf : wf_board (db.board (db.game st)))
    (Hinv : complete_inv (db.game st)) :
  (forall game current_player new_id st0,
     routes.create_game game current_player new_id = Ok st0 ->
     complete_inv (db.game st0))
  /\ (forall commit_ok game_id move current_player rnd,
        complete_inv
          (db.game (run (routes.play_move commit_ok game_id move
                           current_player rnd) st).2))
  /\ (forall commit_ok game_id current_player,
        complete_inv
          (db.game (run (routes.join_game commit_ok game_id
                           current_player) st).2))
  /\ (forall st', reachable st' -> complete_inv (db.game st'))
  /\ (forall commit_ok move current_player rnd symbol,
        validate (db.game st) current_player move = Ok symbol ->
        commit_ok 0%nat = true ->
        let g1 :=
          db.game (run (routes.play_move commit_ok (db.id (db.game st)) move
                          current_player rnd) st).2 in
        let b1 := placed (db.game st) move symbol in
        (db.complete g1 = true <->
         line_of b1 X \/ line_of b1 O \/ board_full b1)
        /\ (db.complete g1 = true <-> db.winner g1 <> None))
  /\ (db.complete (db.game st) = true ->
      forall commit_ok move current_player rnd,
        run (routes.play_move commit_ok (db.id (db.game st)) move
               current_player rnd) st
        = (Raise (HTTPException 400
                    ("Game is complete, winner: "
                     +:+ routes.str_winner (db.winner (db.game st)))), st)).
Proof.
  split.
  { intros game cur nid st0 Hc. apply consistent_complete_inv.
    by eapply create_game_consistent. }
  split; [intros; by apply play_move_complete_inv|].
  split; [intros; by apply join_game_complete_inv|].
  split; [intros st' Hst'; by apply consistent_complete_inv,
                                    reachable_consistent|].
  split.
  { intros commit_ok move cur rnd symbol Hv Hok.
    rewrite (play_move_accepted_store _ _ _ _ _ _ symbol) by done.
    pose proof Hv as (Hc & _)%validate_Ok.
    destruct (open_game _ Hinv Hc) as [Hw _].
    by apply human_half_completes. }
  intros Hc commit_ok move cur rnd.
  apply play_move_rejected; [done|]. unfold validate. by rewrite Hc.
Qed.

Lemma finished_game_complete_inv : complete_inv (db.game finished_game).
Proof. split; [intros _; by left | reflexivity]. Qed.

Lemma complete_invariant_and_absorbing_witness :
  (wf_board (db.board (db.game two_in_a_row))
   /\ complete_inv (db.game two_in_a_row)
   /\ validate (db.game two_in_a_row) 1 winning_request = Ok X
   /\ db.complete
        (db.game (run (routes.play_move all_ok 7 winning_request 1 0)
                      two_in_a_row).2) = true)
  /\ (wf_board (db.board (db.game finished_game))
      /\ complete_inv (db.game finished_game)
      /\ db.complete (db.game finished_game) = true
      /\ forall commit_ok move current_player rnd,
           run (routes.play_move commit_ok (db.id (db.game finished_game))
                  move current_player rnd) finished_game
           = (Raise (HTTPException 400
                       ("Game is complete, winner: "
                        +:+ routes.str_winner
                              (db.winner (db.game finished_game)))),
              finished_game)).
Proof.
  split.
  - split; [apply wf_grid|].
    split; [apply winning_move_completes|]. split; [reflexivity|].
    destruct (complete_invariant_and_absorbing two_in_a_row
                (wf_grid _ _ _ _ _ _ _ _ _) (proj1 winning_move_completes))
      as (_ & _ & _ & _ & Hdone & _).
    pose proof (Hdone all_ok winning_request 1 0%nat X eq_refl eq_refl)
      as Hrow.
    cbv zeta in Hrow. destruct Hrow as [[_ Hrow] _]. apply Hrow.
    left. left. exists 0%nat. split; [lia|].
    intros j Hj. index3 j Hj; reflexivity.
  - split; [apply wf_grid|].
    split; [apply finished_game_complete_inv|].
    split; [reflexivity|].
    apply (complete_invariant_and_absorbing finished_game
             (wf_grid _ _ _ _ _ _ _ _ _) finished_game_complete_inv).
    reflexivity.
Defined.

Lemma validate_raises g current_player move e :
  validate g current_player move = Raise e ->
  e ∈ [routes.game_complete (db.winner g); routes.not_your_game;
       routes.not_your_turn; routes.invalid_coordinates;
       routes.cell_not_empty].
Proof.
  unfold validate. intros Hv.
  repeat (case_match; try discriminate); injection Hv as <-;
    rewrite !elem_of_cons; tauto.
Qed.

(** C2. Whenever [play_move] answers with an [HTTPException] (the game is
    finished, the player is not a participant, it is not the player's
    turn, the coordinates are out of range, the cell is occupied, or the
    game does not exist), the stored rows are exactly those before the
    request: the game row (board, turn, winner, complete) and the move
    log.  The exception is one of the six the handler raises. *)
Theorem rejection_leaves_rows commit_ok game_id move current_player rnd
    (st : db.Store) (status_code : Z) (detail : string)
    (Hrej : (run (routes.play_move commit_ok game_id move current_player rnd)
               st).1 = Raise (HTTPException status_code detail)) :
  (run (routes.play_move commit_ok game_id move current_player rnd) st).2 = st
  /\ HTTPException status_code detail
     ∈ [routes.game_not_found;
        routes.game_complete (db.winner (db.game st));
        routes.not_your_game; routes.not_your_turn;
        routes.invalid_coordinates; routes.cell_not_empty]
  /\ NoDup [routes.game_not_found;
            routes.game_complete (db.winner (db.game st));
            routes.not_your_game; routes.not_your_turn;
            routes.invalid_coordinates; routes.cell_not_empty].
Proof.
  assert (Hdistinct :
    NoDup [routes.game_not_found;
           routes.game_complete (db.winner (db.game st));
           routes.not_your_game; routes.not_your_turn;
           routes.invalid_coordinates; routes.cell_not_empty]).
  { destruct (db.winner (db.game st)) as [[[]|]|];
      apply (bool_decide_unpack _); by vm_compute. }
  destruct (decide (db.id (db.game st) = game_id)) as [Hid|Hid].
  - destruct (validate (db.game st) current_player move) as [symbol|e] eqn:Hv.
    + exfalso. revert Hrej.
      rewrite (play_move_accepted _ _ _ _ _ _ symbol) by done. cbv zeta.
      destruct (commit_ok 0%nat); [|done].
      destruct (computer_to_move _); [|done].
      by destruct (utils.generate_computer_move _ rnd).
    + rewrite (play_move_rejected _ _ _ _ _ _ e) in Hrej |- * by done.
      cbn [fst snd] in *. injection Hrej as ->.
      split; [done|]. split; [|done]. apply elem_of_cons. right.
      by apply (validate_raises _ current_player move).
  - rewrite play_move_not_found in Hrej |- * by done.
    cbn [fst snd] in *. injection Hrej as <- <-.
    split; [done|]. split; [|done]. apply elem_of_cons. by left.
Qed.

Lemma rejection_leaves_rows_witness :
  (run (routes.play_move all_ok 7
          {| models.player_id := 1; models.x := 0; models.y := 0 |} 1 0)
       finished_game).1
  = Raise (HTTPException 400 "Game is complete, winner: X")
  /\ (run (routes.play_move all_ok 7
             {| models.player_id := 1; models.x := 0; models.y := 0 |} 1 0)
          finished_game).2 = finished_game.
Proof.
  split; [reflexivity|].
  apply (rejection_leaves_rows all_ok 7
           {| models.player_id := 1; models.x := 0; models.y := 0 |} 1 0
           finished_game 400 "Game is complete, winner: X" eq_refl).
Defined.

(** C3, as the specification orders the checks: refuted.  In a fresh
    human game of player 1, player 2 (no participant) asks for row 5: the
    specification's order answers "Invalid move coordinates", the handler
    answers 403 "Not your game or not your turn". *)
Lemma spec_order_refuted :
  validate_spec_order (db.game (new_game "human")) 2 stranger_request
  = Raise (HTTPException 400 "Invalid move coordinates")
  /\ run (routes.play_move all_ok 7 stranger_request 2 0) (new_game "human")
     = (Raise (HTTPException 403 "Not your game or not your turn"),
        new_game "human")
  /\ ~ rejects_in_spec_order.
Proof.
  split; [reflexivity|]. split; [reflexivity|].
  intros Hclaim.
  specialize (Hclaim all_ok 7 stranger_request 2 0%nat (new_game "human")
                routes.invalid_coordinates
                (new_game_reachable "human" (or_introl eq_refl))
                eq_refl eq_refl).
  vm_compute in Hclaim. discriminate Hclaim.
Qed.

(** C3, amended.  [play_move] tests, in this order, and the first failure
    decides the error: (1) the game is not complete, (2) the acting
    player resolves to a symbol, (3) that symbol is the turn, (4) the
    coordinates are in [0,2]x[0,2], (5) the cell is empty.  A request that
    passes all five raises no [HTTPException].  So out-of-range
    coordinates from a non-participant get the 403, and from a participant
    out of turn "Not your turn". *)
Theorem validation_order commit_ok game_id move current_player rnd
    (st : db.Store) (Hid : db.id (db.game st) = game_id) :
  let g := db.game st in
  let r := (run (routes.play_move commit_ok game_id move current_player rnd)
              st).1 in
  (db.complete g = true -> r = Raise (routes.game_complete (db.winner g)))
  /\ (db.complete g = false -> resolve_symbol g current_player = None ->
      r = Raise routes.not_your_game)
  /\ (forall s, db.complete g = false ->
        resolve_symbol g current_player = Some s -> db.turn g <> s ->
        r = Raise routes.not_your_turn)
  /\ (forall s, db.complete g = false ->
        resolve_symbol g current_player = Some s -> db.turn g = s ->
        in_range move = false -> r = Raise routes.invalid_coordinates)
  /\ (forall s, db.complete g = false ->
        resolve_symbol g current_player = Some s -> db.turn g = s ->
        in_range move = true -> truthy (target (db.board g) move) = true ->
        r = Raise routes.cell_not_empty)
  /\ (forall s, db.complete g = false ->
        resolve_symbol g current_player = Some s -> db.turn g = s ->
        in_range move = true -> truthy (target (db.board g) move) = false ->
        forall status_code detail, r <> Raise (HTTPException status_code detail))
  /\ NoDup [routes.game_complete (db.winner g); routes.not_your_game;
            routes.not_your_turn; routes.invalid_coordinates;
            routes.cell_not_empty].
Proof.
  intros g r. subst g r.
  assert (Hrun : forall e,
    validate (db.game st) current_player move = Raise e ->
    (run (routes.play_move commit_ok game_id move current_player rnd) st).1
    = Raise e).
  { intros e He. by rewrite (play_move_rejected _ _ _ _ _ _ e). }
  repeat split.
  - intros Hc. apply Hrun. unfold validate. by rewrite Hc.
  - intros Hc Hres. apply Hrun. unfold validate. by rewrite Hc, Hres.
  - intros s Hc Hres Ht. apply Hrun. unfold validate. rewrite Hc, Hres.
    by rewrite bool_decide_eq_false_2.
  - intros s Hc Hres Ht Hin. apply Hrun. unfold validate. rewrite Hc, Hres.
    by rewrite bool_decide_eq_true_2, Hin.
  - intros s Hc Hres Ht Hin Hocc. apply Hrun. unfold validate.
    rewrite Hc, Hres. by rewrite bool_decide_eq_true_2, Hin, Hocc.
  - intros s Hc Hres Ht Hin Hocc status_code detail.
    rewrite (play_move_accepted _ _ _ _ _ _ s);
      [|done|by apply validate_Ok].
    cbv zeta. destruct (commit_ok 0%nat); [|done].
    destruct (computer_to_move _); [|done].
    by destruct (utils.generate_computer_move _ rnd).
  - destruct (db.winner (db.game st)) as [[[]|]|];
      apply (bool_decide_unpack _); by vm_compute.
Qed.

Lemma validation_order_witness :
  db.id (db.game (new_game "human")) = 7
  /\ (run (routes.play_move all_ok 7 stranger_request 2 0)
          (new_game "human")).1
     = Raise (HTTPException 403 "Not your game or not your turn").
Proof.
  split; [reflexivity|].
  destruct (validation_order all_ok 7 stranger_request 2 0
              (new_game "human") eq_refl) as (_ & Hnot & _).
  apply Hnot; reflexivity.
Defined.

(** C4, on the code.  In the move log of every reachable game the
    symbols are X, O, X, O, ..., as the claim says, but every row carries
    the move number 1: [play_move] counts the occupied cells of the board
    it loaded plus the one it placed, and the stored board never gets a
    symbol.  The numbers are 1, 2, ..., N only while the log has at most
    one row.  After the five moves of the top-row scenario the numbers
    are 1, 1, 1, 1, 1. *)
Theorem move_numbers_are_all_one (st : db.Store) (Hst : reachable st) :
  let log := db.moves st in
  map db.symbol log = alternating (length log)
  /\ map db.move_number log = replicate (length log) 1%nat
  /\ (forall k m, log !! k = Some m ->
        db.symbol m = (if Nat.even k then X else O)
        /\ db.move_number m = 1%nat)
  /\ routes.count_occupied (db.board (db.game st)) = 0%nat
  /\ ((2 <= length log)%nat ->
      map db.move_number log <> seq 1 (length log)).
Proof.
  apply reachable_consistent in Hst. cbv zeta.
  pose proof (c_symbols _ Hst) as Hsym.
  pose proof (c_numbers _ Hst) as Hnum.
  split; [exact Hsym|]. split; [exact Hnum|].
  split.
  { intros k m Hk.
    pose proof (lookup_lt_Some _ _ _ Hk) as Hlt. split.
    - apply (f_equal (fun l => l !! k)) in Hsym.
      rewrite list_lookup_fmap, Hk in Hsym. unfold alternating in Hsym.
      rewrite list_lookup_fmap, lookup_seq_lt in Hsym by done.
      by injection Hsym.
    - apply (f_equal (fun l => l !! k)) in Hnum.
      rewrite list_lookup_fmap, Hk, lookup_replicate_2 in Hnum by done.
      by injection Hnum. }
  split; [by rewrite (c_board _ Hst)|].
  intros Hlen. rewrite Hnum.
  destruct (length (db.moves st)) as [|[|n]]; [lia|lia|discriminate].
Qed.

Lemma move_numbers_are_all_one_witness :
  reachable top_row_final
  /\ map db.symbol (db.moves top_row_final) = [X; O; X; O; X]
  /\ map db.move_number (db.moves top_row_final) = [1; 1; 1; 1; 1]%nat.
Proof.
  split; [apply top_row_final_reachable|].
  destruct (move_numbers_are_all_one top_row_final top_row_final_reachable)
    as (Hs & Hn & _).
  split; [exact Hs | exact Hn].
Defined.

(** C5, on the code.  On a 3x3 board [check_winner] returns a symbol
    only if a row, a column or a diagonal holds it three times, and
    returns [None] when neither symbol has such a line; on the board of
    the scenario X(0,0), O(1,1), X(0,1), O(1,0), X(0,2) it returns X.
    But [play_move] never gives it that board: the five requests are
    accepted, the log holds the five moves, and the stored game has the
    empty board, no winner and is not complete.  The claim has the
    session complete with winner X. *)
Theorem top_row_win_is_missed (b : Board) (s : Symbol) (Hwf : wf_board b) :
  (utils.check_winner b = Some s -> line_of b s)
  /\ (~ line_of b X -> ~ line_of b O -> utils.check_winner b = None)
  /\ utils.check_winner top_row_board = Some X
  /\ play_sequence joined_game top_row_requests 0 = Some top_row_final
  /\ replay (db.moves top_row_final) = top_row_board
  /\ db.board (db.game top_row_final) = empty_board
  /\ db.winner (db.game top_row_final) = None
  /\ db.complete (db.game top_row_final) = false.
Proof.
  split; [by apply check_winner_Some|].
  split; [intros; by apply check_winner_None|].
  split; [reflexivity|]. split; [by vm_compute|].
  split; [by vm_compute|]. by vm_compute.
Qed.

Lemma top_row_win_is_missed_witness :
  wf_board top_row_board /\ line_of top_row_board X.
Proof.
  split; [apply wf_grid|].
  apply (top_row_win_is_missed top_row_board X (wf_grid _ _ _ _ _ _ _ _ _)).
  reflexivity.
Defined.

(** C6, on the code.  Player 1 opens a game against the computer and
    plays (0,0).  The first commit stores the human's log row and the
    turn O.  The computer then draws on the board the row holds, which is
    still empty (index 3 of its nine cells is (1,0); index 0 is (0,0),
    the cell just played), and builds its row with [player_id=None],
    which the [moves] table refuses ([nullable=False]): the second commit
    raises [IntegrityError], no game is returned, and the stored rows
    hold the human's move alone.  The claim asks for the reply to be
    applied and returned. *)
Theorem computer_reply_is_refused :
  computer_reply = (Raise IntegrityError, human_move_alone)
  /\ computer_to_move (db.game human_move_alone) = true
  /\ utils.generate_computer_move (db.board (db.game human_move_alone)) 3
     = Some (1%nat, 0%nat)
  /\ utils.generate_computer_move (db.board (db.game human_move_alone)) 0
     = Some (0%nat, 0%nat)
  /\ length (utils.empty_cells (db.board (db.game human_move_alone))) = 9%nat.
Proof. repeat split; reflexivity. Qed.

(** C7, as stated: refuted.  In the same request the human's move is
    stored (turn O, one log row) and the computer's reply is not: the
    stored rows are neither those before the request nor the human's row
    followed by the computer's. *)
Lemma human_move_stored_alone :
  computer_reply.2 = human_move_alone
  /\ ~ stored_as_one_unit.
Proof.
  split; [reflexivity|].
  intros Hclaim.
  destruct (Hclaim all_ok 7 first_request 1 3%nat (new_game "computer") X
              (new_game_reachable "computer" (or_intror eq_refl))
              eq_refl eq_refl eq_refl) as [Hsame|(m2 & Hlog & _)].
  - vm_compute in Hsame. discriminate Hsame.
  - vm_compute in Hlog. discriminate Hlog.
Qed.

(** C7, amended.  A move that passes validation is stored by the commit
    that ends the human's half: it writes the turn, the winner and
    [complete] of the game row together with the human's log row, all or
    none, and leaves the other columns, the board among them, as they
    are.  The computer's reply is left to a second commit of its own,
    which stores nothing.  So after the request the stored rows are those
    before it when the first commit failed, and otherwise those rows with
    the game row of the human's half and the human's log row added: no
    row is ever added without the human's. *)
Theorem human_half_is_one_unit commit_ok game_id move current_player rnd
    (st : db.Store) (symbol : Symbol)
    (Hwf : wf_board (db.board (db.game st)))
    (Hid : db.id (db.game st) = game_id)
    (Hv : validate (db.game st) current_player move = Ok symbol) :
  let g1 := (human_half (db.game st) game_id current_player move symbol).1 in
  let m1 := (human_half (db.game st) game_id current_player move symbol).2 in
  let out :=
    (run (routes.play_move commit_ok game_id move current_player rnd) st).2 in
  (commit_ok 0%nat = false -> out = st)
  /\ (commit_ok 0%nat = true ->
      out = {| db.game := g1; db.moves := db.moves st ++ [m1] |})
  /\ (db.id g1 = db.id (db.game st)
      /\ db.player_x_id g1 = db.player_x_id (db.game st)
      /\ db.player_o_id g1 = db.player_o_id (db.game st)
      /\ db.opponent_type g1 = db.opponent_type (db.game st)
      /\ db.board g1 = db.board (db.game st))
  /\ m1 = {| db.game_id := game_id; db.player_id := Some current_player;
             db.x := models.x move; db.y := models.y move;
             db.symbol := symbol;
             db.move_number :=
               routes.count_occupied (placed (db.game st) move symbol) |}
  /\ (forall m, m ∈ db.moves out -> m ∈ db.moves st \/ m = m1).
Proof.
  cbv zeta.
  rewrite (play_move_accepted _ _ _ _ _ _ symbol) by done. cbv zeta.
  split; [by intros ->|].
  split.
  { intros ->. destruct (computer_to_move _); [|done].
    by destruct (utils.generate_computer_move _ rnd). }
  split; [apply human_half_fields|].
  split; [reflexivity|].
  intros m.
  destruct (commit_ok 0%nat); [|by left].
  assert (m ∈ db.moves st ++
            [(human_half (db.game st) game_id current_player move symbol).2] ->
          m ∈ db.moves st
          \/ m = (human_half (db.game st) game_id current_player move symbol).2)
    as Hm.
  { intros [?|?%list_elem_of_singleton]%elem_of_app; auto. }
  destruct (computer_to_move _); [|exact Hm].
  by destruct (utils.generate_computer_move _ rnd).
Qed.

Lemma human_half_is_one_unit_witness :
  wf_board (db.board (db.game (new_game "computer")))
  /\ db.id (db.game (new_game "computer")) = 7
  /\ validate (db.game (new_game "computer")) 1 first_request = Ok X
  /\ computer_reply.2
     = {| db.game :=
            (human_half (db.game (new_game "computer")) 7 1 first_request X).1;
          db.moves :=
            db.moves (new_game "computer")
            ++ [(human_half (db.game (new_game "computer")) 7 1
                   first_request X).2] |}.
Proof.
  split; [apply wf_grid|]. split; [reflexivity|]. split; [reflexivity|].
  apply (human_half_is_one_unit all_ok 7 first_request 1 3
           (new_game "computer") X (wf_grid _ _ _ _ _ _ _ _ _)
           eq_refl eq_refl).
  reflexivity.
Defined.

(** C8, on the code.  The stored board of a reachable game is the empty
    board, whatever its log: as soon as one move is logged, replaying the
    log (in the order of the move numbers, or in the order of the rows)
    gives a board with a symbol on it, which is not the stored one.  The
    claim has the two equal. *)
Theorem replay_differs_from_stored_board (st : db.Store)
    (Hst : reachable st) (Hlog : db.moves st <> []) :
  db.board (db.game st) = empty_board
  /\ replay (by_move_number (db.moves st)) <> db.board (db.game st)
  /\ replay (db.moves st) <> db.board (db.game st).
Proof.
  apply reachable_consistent in Hst.
  pose proof (c_board _ Hst) as Hb. rewrite Hb.
  assert (Hin : forall m, m ∈ db.moves st ->
            0 <= db.x m < 3 /\ 0 <= db.y m < 3).
  { intros m Hm. by destruct (c_cells _ Hst m Hm) as (_ & ? & ?). }
  split; [done|]. split; [|by apply replay_not_empty].
  apply replay_not_empty.
  - intros Hnil. apply Hlog, Permutation_nil_r.
    by rewrite <- Hnil, by_move_number_perm.
  - intros m Hm. apply Hin. by rewrite <- by_move_number_perm.
Qed.

Lemma replay_differs_from_stored_board_witness :
  reachable waiting_for_o
  /\ db.moves waiting_for_o <> []
  /\ replay (by_move_number (db.moves waiting_for_o))
     <> db.board (db.game waiting_for_o).
Proof.
  assert (Hst : reachable waiting_for_o)
    by (apply reach_move, new_game_reachable; left; reflexivity).
  split; [exact Hst|]. split; [discriminate|].
  apply (replay_differs_from_stored_board waiting_for_o Hst).
  discriminate.
Defined.

(** C9. [generate_computer_move] returns [None] only on a board without
    an empty cell, and otherwise a pair in range whose cell is empty on
    that board.  A reachable game that is not complete has a board that
    is not full.  So in [play_move] the computer branch always gets a
    pair: the request never raises the [TypeError] of unpacking [None],
    and the cell the computer writes is empty on the board it is given.
    That board is the one the game row holds after the first commit,
    which is the board before the request: the cell of the request is
    empty on it too. *)
Theorem computer_move_is_safe (st : db.Store) (Hst : reachable st) :
  (forall b rnd, utils.generate_computer_move b rnd = None ->
     forall i j, (i < 3)%nat -> (j < 3)%nat -> cell_at b i j <> None)
  /\ (forall b rnd cx cy, utils.generate_computer_move b rnd = Some (cx, cy) ->
        (cx < 3)%nat /\ (cy < 3)%nat /\ cell_at b cx cy = None)
  /\ (db.complete (db.game st) = false ->
      ~ board_full (db.board (db.game st))
      /\ utils.is_board_full (db.board (db.game st)) = false
      /\ exists i j, (i < 3)%nat /\ (j < 3)%nat
                     /\ cell_at (db.board (db.game st)) i j = None)
  /\ (forall commit_ok game_id move current_player rnd,
        (run (routes.play_move commit_ok game_id move current_player rnd)
             st).1 <> Raise TypeError)
  /\ (forall game_id move current_player rnd symbol,
        validate (db.game st) current_player move = Ok symbol ->
        let g1 :=
          (human_half (db.game st) game_id current_player move symbol).1 in
        computer_to_move g1 = true ->
        db.board g1 = db.board (db.game st)
        /\ cell_at (db.board g1) (Z.to_nat (models.x move))
                   (Z.to_nat (models.y move)) = None
        /\ exists cx cy,
             utils.generate_computer_move (db.board g1) rnd = Some (cx, cy)
             /\ (cx < 3)%nat /\ (cy < 3)%nat
             /\ cell_at (db.board g1) cx cy = None).
Proof.
  pose proof (reachable_consistent _ Hst) as Hc.
  split.
  { intros b rnd Hnone i j Hi Hj Hcell.
    apply generate_computer_move_None in Hnone.
    pose proof (empty_cell_listed b i j Hi Hj Hcell) as Hin.
    rewrite Hnone in Hin. by apply elem_of_nil in Hin. }
  split.
  { intros b rnd cx cy Hg.
    by apply elem_of_empty_cells, generate_computer_move_Some with (rnd := rnd). }
  split.
  { intros _. rewrite (c_board _ Hc).
    split; [apply empty_board_not_full|]. split; [reflexivity|].
    exists 0%nat, 0%nat. split; [lia|]. split; [lia|reflexivity]. }
  split; [intros; by apply play_move_no_TypeError|].
  intros game_id move current_player rnd symbol Hv g1 Hcm.
  pose proof (human_half_fields (db.game st) game_id current_player move
                symbol) as (_ & _ & _ & _ & Hb).
  cbv zeta in Hb. subst g1. rewrite Hb.
  destruct (validated_cell_is_empty _ _ _ _ Hv) as (Hi & Hj & Hcell).
  split; [done|]. split; [done|].
  destruct (empty_cell_gives_move _ rnd _ _ Hi Hj Hcell) as (cx & cy & Hg).
  exists cx, cy. split; [done|].
  by apply elem_of_empty_cells, generate_computer_move_Some with (rnd := rnd).
Qed.

Lemma computer_move_is_safe_witness :
  reachable (new_game "computer")
  /\ (run (routes.play_move all_ok 7 first_request 1 3)
          (new_game "computer")).1 <> Raise TypeError.
Proof.
  assert (Hst : reachable (new_game "computer"))
    by (apply new_game_reachable; right; reflexivity).
  split; [exact Hst|].
  destruct (computer_move_is_safe (new_game "computer") Hst)
    as (_ & _ & _ & Hsafe & _).
  apply Hsafe.
Defined.

(** C10. In a reachable human game whose O seat is unassigned: every
    move in the log is X's and there is at most one; a player other than
    the X player gets the 403; the X player gets "Not your turn" when the
    turn is O; once the log is not empty the turn is O and no move
    request changes the rows or is accepted, whoever asks; the creator
    cannot join as O, and any other player can (commits succeeding),
    which assigns the seat and changes nothing else. *)
Theorem pending_seat_blocks_moves (st : db.Store) (Hst : reachable st)
    (Hh : db.opponent_type (db.game st) = "human")
    (Hn : db.player_o_id (db.game st) = None) :
  let g := db.game st in
  (forall m, m ∈ db.moves st -> db.symbol m = X)
  /\ (length (db.moves st) <= 1)%nat
  /\ (forall commit_ok move current_player rnd,
        current_player <> db.player_x_id g ->
        run (routes.play_move commit_ok (db.id g) move current_player rnd) st
        = (Raise (HTTPException 403 "Not your game or not your turn"), st))
  /\ (db.turn g = O ->
      forall commit_ok move rnd,
        run (routes.play_move commit_ok (db.id g) move (db.player_x_id g) rnd)
            st
        = (Raise (HTTPException 400 "Not your turn"), st))
  /\ (db.moves st <> [] ->
      db.turn g = O
      /\ forall commit_ok game_id move current_player rnd,
           let r := run (routes.play_move commit_ok game_id move
                           current_player rnd) st in
           ~ accepted r /\ r.2 = st)
  /\ (forall commit_ok,
        run (routes.join_game commit_ok (db.id g) (db.player_x_id g)) st
        = (Raise (HTTPException 400 "Creator can't join as O"), st))
  /\ (forall current_player,
        current_player <> db.player_x_id g ->
        run (routes.join_game all_ok (db.id g) current_player) st
        = (Ok (db.set_player_o_id g (Some current_player)),
           {| db.game := db.set_player_o_id g (Some current_player);
              db.moves := db.moves st |})).
Proof.
  pose proof (reachable_consistent _ Hst) as Hc. cbv zeta.
  pose proof (c_open _ Hc) as Hopen.
  pose proof (c_pending _ Hc Hh Hn) as Hlen.
  assert (Hother : forall current_player,
            current_player <> db.player_x_id (db.game st) ->
            resolve_symbol (db.game st) current_player = None).
  { intros cur Hcur. unfold resolve_symbol. rewrite Hh, Hn.
    rewrite bool_decide_eq_false_2 by done. reflexivity. }
  assert (Hself : resolve_symbol (db.game st) (db.player_x_id (db.game st))
                  = Some X).
  { unfold resolve_symbol. by rewrite bool_decide_eq_true_2. }
  assert (H403 : forall commit_ok move current_player rnd,
            current_player <> db.player_x_id (db.game st) ->
            run (routes.play_move commit_ok (db.id (db.game st)) move
                   current_player rnd) st
            = (Raise routes.not_your_game, st)).
  { intros commit_ok move cur rnd Hcur. apply play_move_rejected; [done|].
    unfold validate. by rewrite Hopen, (Hother _ Hcur). }
  assert (Hturn : db.turn (db.game st) = O ->
            forall commit_ok move rnd,
              run (routes.play_move commit_ok (db.id (db.game st)) move
                     (db.player_x_id (db.game st)) rnd) st
              = (Raise routes.not_your_turn, st)).
  { intros Ht commit_ok move rnd. apply play_move_rejected; [done|].
    unfold validate. by rewrite Hopen, Hself, Ht. }
  split.
  { intros m Hm. apply list_elem_of_lookup in Hm as [k Hk].
    pose proof (lookup_lt_Some _ _ _ Hk) as Hlt.
    pose proof (c_symbols _ Hc) as Hsym.
    apply (f_equal (fun l => l !! k)) in Hsym.
    rewrite list_lookup_fmap, Hk in Hsym. unfold alternating in Hsym.
    rewrite list_lookup_fmap, lookup_seq_lt in Hsym by done.
    injection Hsym as ->. assert (k = 0%nat) as -> by lia. reflexivity. }
  split; [done|]. split; [exact H403|]. split; [exact Hturn|].
  split.
  { intros Hne.
    assert (Ht : db.turn (db.game st) = O).
    { rewrite (c_turn _ Hc).
      destruct (db.moves st) as [|m0 [|m1 l]]; [done|done|cbn in Hlen; lia]. }
    split; [done|].
    intros commit_ok game_id move cur rnd. cbv zeta.
    destruct (decide (db.id (db.game st) = game_id)) as [<-|Hid];
      [|rewrite play_move_not_found by done; split; [by intros [? ?]|done]].
    destruct (decide (cur = db.player_x_id (db.game st))) as [->|Hcur].
    - rewrite Hturn by done. split; [by intros [? ?]|done].
    - rewrite H403 by done. split; [by intros [? ?]|done]. }
  split.
  { intros commit_ok.
    unfold run, routes.join_game, mbind, M_bind, query_game_first, raise.
    cbn [db.store db.game]. rewrite decide_True by done.
    rewrite Hh. rewrite (bool_decide_eq_true_2 ("human" = "human")) by done.
    cbn [negb]. by rewrite bool_decide_eq_true_2. }
  intros cur Hcur.
  destruct (join_game_run all_ok (db.id (db.game st)) cur st)
    as [[e He]|(_ & _ & _ & _ & _ & ->)]; [|done].
  exfalso. revert He.
  unfold run, routes.join_game, mbind, M_bind, query_game_first, raise.
  cbn [db.store db.game]. rewrite decide_True by done.
  rewrite Hh, Hn. rewrite (bool_decide_eq_true_2 ("human" = "human")) by done.
  cbn [negb]. rewrite bool_decide_eq_false_2 by done.
  unfold db_commit, all_ok. cbn. discriminate.
Qed.

Lemma pending_seat_blocks_moves_witness :
  reachable waiting_for_o
  /\ db.opponent_type (db.game waiting_for_o) = "human"
  /\ db.player_o_id (db.game waiting_for_o) = None
  /\ db.moves waiting_for_o <> []
  /\ forall commit_ok game_id move current_player rnd,
       ~ accepted (run (routes.play_move commit_ok game_id move
                          current_player rnd) waiting_for_o)
       /\ (run (routes.play_move commit_ok game_id move current_player rnd)
               waiting_for_o).2 = waiting_for_o.
Proof.
  assert (Hst : reachable waiting_for_o)
    by (apply reach_move, new_game_reachable; left; reflexivity).
  split; [exact Hst|]. split; [reflexivity|]. split; [reflexivity|].
  split; [discriminate|].
  destruct (pending_seat_blocks_moves waiting_for_o Hst eq_refl eq_refl)
    as (_ & _ & _ & _ & Hblocked & _).
  apply Hblocked. discriminate.
Defined.

(** * Further properties *)

(** ** Moves in a reachable game *)

Lemma empty_board_cell i j : cell_at empty_board i j = None.
Proof.
  destruct i as [|[|[|i]]]; destruct j as [|[|[|j]]]; reflexivity.
Qed.

(** In a reachable game the player whose symbol is the turn is accepted
    on every cell in range: the turn passes, the row is logged under the
    number 1, and the board of the game row stays empty.  The request
    returns the game unless the computer is to move next. *)
Lemma play_move_on_turn commit_ok move current_player rnd st symbol :
  consistent st ->
  resolve_symbol (db.game st) current_player = Some symbol ->
  db.turn (db.game st) = symbol ->
  in_range move = true ->
  commit_ok 0%nat = true ->
  run (routes.play_move commit_ok (db.id (db.game st)) move current_player
         rnd) st
  = let g1 := db.set_turn (db.game st) (other symbol) in
    (if computer_to_move g1 then Raise IntegrityError else Ok g1,
     {| db.game := g1;
        db.moves := db.moves st ++
          [{| db.game_id := db.id (db.game st);
              db.player_id := Some current_player;
              db.x := models.x move; db.y := models.y move;
              db.symbol := symbol; db.move_number := 1%nat |}] |}).
Proof.
  intros Hst Hres Ht Hin Hok.
  assert (Hv : validate (db.game st) current_player move = Ok symbol).
  { apply validate_Ok. rewrite (c_open _ Hst). do 4 (split; [done|]).
    unfold target. by rewrite (c_board _ Hst), empty_board_cell. }
  rewrite (play_move_accepted _ _ _ _ _ _ symbol) by done.
  rewrite human_half_new_board
    by (done || apply (c_board _ Hst) || apply (c_open _ Hst)).
  cbv zeta. cbn [fst snd]. rewrite Hok. unfold with_move.
  destruct (computer_to_move _); [|done].
  cbn [db.set_turn db.board]. rewrite (c_board _ Hst).
  by destruct (empty_cell_gives_move empty_board rnd 0 0)
    as (cx & cy & ->); [lia|lia|reflexivity|].
Qed.

(** X1. In every reachable game the stored board is the empty board, no
    winner is recorded and the game is not complete, however many rows
    the move log holds: no request the handlers accept ends a game.  The
    turn is X exactly when the log has an even number of rows. *)
Theorem reachable_game_stays_open (st : db.Store) (Hst : reachable st) :
  db.board (db.game st) = empty_board
  /\ db.winner (db.game st) = None
  /\ db.complete (db.game st) = false
  /\ (forall s, ~ line_of (db.board (db.game st)) s)
  /\ db.turn (db.game st)
     = (if Nat.even (length (db.moves st)) then X else O).
Proof.
  apply reachable_consistent in Hst.
  split; [apply (c_board _ Hst)|]. split; [apply (c_winner _ Hst)|].
  split; [apply (c_open _ Hst)|]. split; [|apply (c_turn _ Hst)].
  intros s. rewrite (c_board _ Hst), <- has_line_spec. by destruct s.
Qed.

Lemma reachable_game_stays_open_witness :
  reachable top_row_final
  /\ length (db.moves top_row_final) = 5%nat
  /\ db.board (db.game top_row_final) = empty_board
  /\ db.winner (db.game top_row_final) = None
  /\ db.complete (db.game top_row_final) = false.
Proof.
  split; [apply top_row_final_reachable|]. split; [reflexivity|].
  destruct (reachable_game_stays_open top_row_final top_row_final_reachable)
    as (Hb & Hw & Hc & _).
  split; [exact Hb|]. split; [exact Hw | exact Hc].
Defined.



(** X5. The X player and the O player of a reachable game are different
    players, only a human game has an O player, every logged row names
    the player who sent it, and a row is an X exactly when that player is
    the creator: the creator never places an O and nobody else an X. *)
Theorem rows_name_their_player (st : db.Store) (Hst : reachable st) :
  (forall p, db.player_o_id (db.game st) = Some p ->
     p <> db.player_x_id (db.game st)
     /\ db.opponent_type (db.game st) = "human")
  /\ (forall m, m ∈ db.moves st ->
        exists p, db.player_id m = Some p
                  /\ (db.symbol m = X <-> p = db.player_x_id (db.game st))).
Proof.
  apply reachable_consistent in Hst.
  split; [apply (c_seats _ Hst) | apply (c_players _ Hst)].
Qed.

Lemma rows_name_their_player_witness :
  reachable top_row_final
  /\ forall p, db.player_o_id (db.game top_row_final) = Some p ->
       p <> db.player_x_id (db.game top_row_final)
       /\ db.opponent_type (db.game top_row_final) = "human".
Proof.
  split; [apply top_row_final_reachable|].
  apply (rows_name_their_player top_row_final top_row_final_reachable).
Defined.

(** X6. A game has no last move.  For every [n] there is a reachable
    human game, both seats taken, whose log holds [n] rows, all of them
    on the cell (0,0), and which is not complete: the two players can go
    on playing the same cell in turn. *)
Theorem game_has_no_last_move (n : nat) :
  exists st,
    reachable st
    /\ db.opponent_type (db.game st) = "human"
    /\ length (db.moves st) = n
    /\ (forall m, m ∈ db.moves st -> db.x m = 0 /\ db.y m = 0)
    /\ db.complete (db.game st) = false.
Proof.
  assert (exists st, reachable st
            /\ db.game st
               = db.set_turn (db.game joined_game) (nth_symbol n)
            /\ length (db.moves st) = n
            /\ forall m, m ∈ db.moves st -> db.x m = 0 /\ db.y m = 0)
    as (st & Hst & Hg & Hlen & Hcells).
  { induction n as [|n (st & Hst & Hg & Hlen & Hcells)].
    - exists joined_game. split; [apply joined_game_reachable|].
      split; [reflexivity|]. split; [reflexivity|].
      intros m Hm. by apply elem_of_nil in Hm.
    - set (cur := if Nat.even n then 1 else 2).
      set (mv := {| models.player_id := cur; models.x := 0; models.y := 0 |}).
      pose proof (play_move_on_turn all_ok mv cur 0 st (nth_symbol n)
                    (reachable_consistent _ Hst)) as Hrun.
      rewrite Hg in Hrun.
      specialize (Hrun ltac:(unfold nth_symbol, cur; by destruct (Nat.even n))
                       eq_refl eq_refl eq_refl).
      cbv zeta in Hrun.
      exists (run (routes.play_move all_ok (db.id (db.game st)) mv cur 0)
                  st).2.
      split; [by apply reach_move|].
      rewrite Hg, Hrun. cbn [snd db.game db.moves].
      split.
      { unfold nth_symbol, other. rewrite Nat.even_succ, <- Nat.negb_even.
        by destruct (Nat.even n). }
      split; [rewrite length_app; cbn [length]; lia|].
      intros m [Hm|Hm]%elem_of_app; [by apply Hcells|].
      by apply list_elem_of_singleton in Hm as ->. }
  exists st. split; [done|]. rewrite Hg.
  split; [reflexivity|]. split; [done|]. split; [done|reflexivity].
Qed.

(** X7. In a reachable human game the player whose turn it is (the
    creator when the turn is X, the joined player when it is O) is
    accepted on every cell in range when the commit succeeds, whether or
    not the log already has a move on that cell: one row with the player,
    the coordinates, the symbol and the move number 1 is logged, the turn
    passes to the other symbol, and the game returned is the game stored,
    with the board as it was. *)
Theorem legal_move_is_accepted commit_ok move current_player rnd
    (st : db.Store) (Hst : reachable st)
    (Hty : db.opponent_type (db.game st) = "human")
    (Hwho : (db.turn (db.game st) = X
             /\ current_player = db.player_x_id (db.game st))
            \/ (db.turn (db.game st) = O
                /\ db.player_o_id (db.game st) = Some current_player))
    (Hin : in_range move = true)
    (Hok : commit_ok 0%nat = true) :
  let g1 := db.set_turn (db.game st) (other (db.turn (db.game st))) in
  run (routes.play_move commit_ok (db.id (db.game st)) move
         current_player rnd) st
  = (Ok g1,
     {| db.game := g1;
        db.moves := db.moves st ++
          [{| db.game_id := db.id (db.game st);
              db.player_id := Some current_player;
              db.x := models.x move; db.y := models.y move;
              db.symbol := db.turn (db.game st);
              db.move_number := 1%nat |}] |})
  /\ db.board g1 = db.board (db.game st).
Proof.
  pose proof (reachable_consistent _ Hst) as Hc. cbv zeta.
  split; [|reflexivity].
  assert (Hres : resolve_symbol (db.game st) current_player
                 = Some (db.turn (db.game st))).
  { unfold resolve_symbol. destruct Hwho as [[-> ->]|[-> Ho]].
    - by rewrite bool_decide_eq_true_2.
    - destruct (c_seats _ Hc _ Ho) as [Hne _].
      rewrite bool_decide_eq_false_2 by congruence.
      by rewrite (bool_decide_eq_true_2 _ Ho). }
  rewrite (play_move_on_turn _ _ _ _ _ _ Hc Hres eq_refl Hin Hok).
  cbv zeta. unfold computer_to_move. cbn [db.set_turn db.opponent_type].
  rewrite Hty. reflexivity.
Qed.

Lemma legal_move_is_accepted_witness :
  reachable waiting_for_o
  /\ exists g1 st1,
       run (routes.play_move all_ok 7 first_request 2 0)
           (run (routes.join_game all_ok 7 2) waiting_for_o).2
       = (Ok g1, st1)
       /\ map (fun m => (db.x m, db.y m, db.symbol m, db.move_number m))
              (db.moves st1)
          = [(0, 0, X, 1%nat); (0, 0, O, 1%nat)].
Proof.
  assert (Hst : reachable waiting_for_o)
    by (apply reach_move, new_game_reachable; left; reflexivity).
  split; [exact Hst|].
  destruct (legal_move_is_accepted all_ok first_request 2 0
              (run (routes.join_game all_ok 7 2) waiting_for_o).2
              (reach_join all_ok 7 2 _ Hst) eq_refl
              (or_intror (conj eq_refl eq_refl)) eq_refl eq_refl)
    as [Hrun _].
  eexists _, _. split; [exact Hrun|]. reflexivity.
Defined.

(** ** Games against the computer *)

Lemma computer_game_seat st :
  consistent st -> db.opponent_type (db.game st) = "computer" ->
  db.player_o_id (db.game st) = None.
Proof.
  intros Hc Hty. destruct (db.player_o_id (db.game st)) as [p|] eqn:Ho; [|done].
  destruct (c_seats _ Hc _ Ho) as [_ Hh]. rewrite Hty in Hh. discriminate Hh.
Qed.

(** X8. In a reachable game against the computer with X to move, the
    creator's move on any cell in range, the first commit succeeding,
    ends in [IntegrityError]: the row is logged under the number 1, the
    turn stored is O, the board stored is unchanged and no game is
    returned.  Every other player is told "Not your turn". *)
Theorem computer_game_move commit_ok move current_player rnd
    (st : db.Store) (Hst : reachable st)
    (Hty : db.opponent_type (db.game st) = "computer")
    (Hturn : db.turn (db.game st) = X)
    (Hin : in_range move = true)
    (Hok : commit_ok 0%nat = true) :
  run (routes.play_move commit_ok (db.id (db.game st)) move
         (db.player_x_id (db.game st)) rnd) st
  = (Raise IntegrityError,
     {| db.game := db.set_turn (db.game st) O;
        db.moves := db.moves st ++
          [{| db.game_id := db.id (db.game st);
              db.player_id := Some (db.player_x_id (db.game st));
              db.x := models.x move; db.y := models.y move;
              db.symbol := X; db.move_number := 1%nat |}] |})
  /\ (current_player <> db.player_x_id (db.game st) ->
      run (routes.play_move commit_ok (db.id (db.game st)) move
             current_player rnd) st
      = (Raise (HTTPException 400 "Not your turn"), st)).
Proof.
  pose proof (reachable_consistent _ Hst) as Hc. split.
  - assert (Hres : resolve_symbol (db.game st) (db.player_x_id (db.game st))
                   = Some X).
    { unfold resolve_symbol. by rewrite bool_decide_eq_true_2. }
    rewrite (play_move_on_turn _ _ _ _ _ _ Hc Hres Hturn Hin Hok).
    cbv zeta. unfold computer_to_move, other.
    cbn [db.set_turn db.opponent_type db.complete db.turn].
    rewrite Hty, (c_open _ Hc). reflexivity.
  - intros Hcur. apply play_move_rejected; [done|].
    unfold validate, resolve_symbol.
    rewrite (c_open _ Hc), Hty, (computer_game_seat _ Hc Hty), Hturn.
    rewrite bool_decide_eq_false_2 by congruence. reflexivity.
Qed.

Lemma computer_game_move_witness :
  reachable (new_game "computer")
  /\ run (routes.play_move all_ok 7 first_request 1 3) (new_game "computer")
     = (Raise IntegrityError, human_move_alone).
Proof.
  assert (Hst : reachable (new_game "computer"))
    by (apply new_game_reachable; right; reflexivity).
  split; [exact Hst|].
  apply (computer_game_move all_ok first_request 1 3 (new_game "computer")
           Hst eq_refl eq_refl eq_refl eq_refl).
Defined.

(** X9. In a reachable game against the computer with O to move, the
    creator is told "Not your turn", and every other player is taken for
    O: on any cell in range, the commit succeeding, that player's request
    is accepted, logs an O under that player's id with the number 1 and
    passes the turn to X; the board of the game row is unchanged. *)
Theorem anyone_moves_for_the_computer commit_ok move current_player rnd
    (st : db.Store) (Hst : reachable st)
    (Hty : db.opponent_type (db.game st) = "computer")
    (Hturn : db.turn (db.game st) = O)
    (Hin : in_range move = true)
    (Hok : commit_ok 0%nat = true) :
  run (routes.play_move commit_ok (db.id (db.game st)) move
         (db.player_x_id (db.game st)) rnd) st
  = (Raise (HTTPException 400 "Not your turn"), st)
  /\ (current_player <> db.player_x_id (db.game st) ->
      run (routes.play_move commit_ok (db.id (db.game st)) move
             current_player rnd) st
      = (Ok (db.set_turn (db.game st) X),
         {| db.game := db.set_turn (db.game st) X;
            db.moves := db.moves st ++
              [{| db.game_id := db.id (db.game st);
                  db.player_id := Some current_player;
                  db.x := models.x move; db.y := models.y move;
                  db.symbol := O; db.move_number := 1%nat |}] |})).
Proof.
  pose proof (reachable_consistent _ Hst) as Hc. split.
  - apply play_move_rejected; [done|].
    unfold validate, resolve_symbol.
    rewrite (c_open _ Hc), Hturn. by rewrite bool_decide_eq_true_2.
  - intros Hcur.
    assert (Hres : resolve_symbol (db.game st) current_player = Some O).
    { unfold resolve_symbol.
      rewrite Hty, (computer_game_seat _ Hc Hty).
      rewrite bool_decide_eq_false_2 by congruence. reflexivity. }
    rewrite (play_move_on_turn _ _ _ _ _ _ Hc Hres Hturn Hin Hok).
    cbv zeta. unfold computer_to_move, other.
    cbn [db.set_turn db.opponent_type db.complete db.turn].
    rewrite Hty, (c_open _ Hc). reflexivity.
Qed.

Lemma anyone_moves_for_the_computer_witness :
  reachable human_move_alone
  /\ exists g1 st1,
       run (routes.play_move all_ok 7 first_request 5 0) human_move_alone
       = (Ok g1, st1)
       /\ map (fun m => (db.player_id m, db.x m, db.y m, db.symbol m))
              (db.moves st1)
          = [(Some 1, 0, 0, X); (Some 5, 0, 0, O)].
Proof.
  assert (Hst : reachable human_move_alone).
  { apply (reach_move all_ok 7 first_request 1 3 (new_game "computer")).
    apply new_game_reachable. by right. }
  split; [exact Hst|].
  destruct (anyone_moves_for_the_computer all_ok first_request 5 0
              human_move_alone Hst eq_refl eq_refl eq_refl eq_refl)
    as [_ Hany].
  eexists _, _. split; [apply Hany; discriminate|]. reflexivity.
Defined.

(** ** Counting the occupied cells *)

Lemma occ_le c : (occ c <= 1)%nat.
Proof. by destruct c; cbn; lia. Qed.

Lemma count_occupied_le b : wf_board b -> (routes.count_occupied b <= 9)%nat.
Proof.
  intros H. grid b H. rewrite count_occupied_grid.
  pose proof (occ_le c00). pose proof (occ_le c01). pose proof (occ_le c02).
  pose proof (occ_le c10). pose proof (occ_le c11). pose proof (occ_le c12).
  pose proof (occ_le c20). pose proof (occ_le c21). pose proof (occ_le c22).
  lia.
Qed.

Lemma full_iff_nine b :
  wf_board b ->
  utils.is_board_full b = true <-> routes.count_occupied b = 9%nat.
Proof.
  intros H. grid b H.
  destruct c00, c01, c02, c10, c11, c12, c20, c21, c22; by vm_compute.
Qed.


(** ** Joining and reading a game *)

(** X10. [join_game] tests in this order: no game with that id (404), a
    game that is not human against human (400), the creator (400), a
    seat already taken (409).  Otherwise the player gets the O seat when
    the commit succeeds.  Whatever it answers, the board, the turn, the
    winner, [complete], the creator, the kind of opponent and the move
    log stay as they are.  A seat held by player id 0 counts as free. *)
Theorem join_game_outcomes commit_ok game_id current_player
    (st : db.Store) :
  let g := db.game st in
  let r := run (routes.join_game commit_ok game_id current_player) st in
  (db.id g <> game_id -> r = (Raise (HTTPException 404 "Game not found"), st))
  /\ (db.id g = game_id -> db.opponent_type g <> "human" ->
      r = (Raise (HTTPException 400 "Join is only for human vs human games"),
           st))
  /\ (db.id g = game_id -> db.opponent_type g = "human" ->
      db.player_x_id g = current_player ->
      r = (Raise (HTTPException 400 "Creator can't join as O"), st))
  /\ (forall p, db.id g = game_id -> db.opponent_type g = "human" ->
        db.player_x_id g <> current_player ->
        db.player_o_id g = Some p -> p <> 0 ->
        r = (Raise (HTTPException 409 "Game already has two players"), st))
  /\ (db.id g = game_id -> db.opponent_type g = "human" ->
      db.player_x_id g <> current_player ->
      db.player_o_id g = None \/ db.player_o_id g = Some 0 ->
      r = if commit_ok 0%nat
          then (Ok (db.set_player_o_id g (Some current_player)),
                {| db.game := db.set_player_o_id g (Some current_player);
                   db.moves := db.moves st |})
          else (Raise OperationalError, st))
  /\ (db.set_player_o_id (db.game r.2) (db.player_o_id g) = g
      /\ db.moves r.2 = db.moves st).
Proof.
  cbv zeta.
  assert (Hframe :
    db.set_player_o_id
      (db.game (run (routes.join_game commit_ok game_id current_player) st).2)
      (db.player_o_id (db.game st)) = db.game st
    /\ db.moves (run (routes.join_game commit_ok game_id current_player) st).2
       = db.moves st).
  { destruct (join_game_run commit_ok game_id current_player st)
      as [[e ->]|(_ & _ & _ & _ & _ & ->)]; cbn [snd db.game db.moves];
      (split; [by destruct st as [[]]|done]). }
  unfold run, routes.join_game, mbind, M_bind, query_game_first, raise,
    routes.game_not_found in *.
  cbn [db.store db.game] in *.
  split.
  { intros Hid. by rewrite decide_False. }
  split.
  { intros Hid Hty. rewrite decide_True by done.
    by rewrite bool_decide_eq_false_2. }
  split.
  { intros Hid Hty Hx. rewrite decide_True by done.
    rewrite bool_decide_eq_true_2 by done. cbn [negb].
    by rewrite bool_decide_eq_true_2. }
  split.
  { intros p Hid Hty Hx Ho Hp. rewrite decide_True by done.
    rewrite bool_decide_eq_true_2 by done. cbn [negb].
    rewrite bool_decide_eq_false_2 by done. rewrite Ho.
    by rewrite bool_decide_eq_false_2. }
  split; [|exact Hframe].
  intros Hid Hty Hx Ho. rewrite decide_True by done.
  rewrite bool_decide_eq_true_2 by done. cbn [negb].
  rewrite bool_decide_eq_false_2 by done.
  assert (match db.player_o_id (db.game st) with
          | Some p => negb (bool_decide (p = 0))
          | None => false
          end = false) as ->.
  { destruct Ho as [-> | ->]; [done|]. by rewrite bool_decide_eq_true_2. }
  unfold db_commit, db_refresh, rolled_back.
  cbn [db.added forallb negb db.commits].
  destruct (commit_ok 0%nat); cbn [fst snd db.store db.game db.moves];
    [|done].
  by rewrite app_nil_r.
Qed.

Lemma join_game_outcomes_witness :
  run (routes.join_game all_ok 7 1) (new_game "human")
  = (Raise (HTTPException 400 "Creator can't join as O"), new_game "human")
  /\ run (routes.join_game all_ok 7 3) joined_game
     = (Raise (HTTPException 409 "Game already has two players"), joined_game).
Proof.
  split.
  - destruct (join_game_outcomes all_ok 7 1 (new_game "human"))
      as (_ & _ & Hcreator & _).
    apply Hcreator; reflexivity.
  - destruct (join_game_outcomes all_ok 7 3 joined_game)
      as (_ & _ & _ & Htaken & _).
    apply (Htaken 2); (reflexivity || discriminate).
Defined.

(** X11. The identity of a game never changes: every [play_move] and
    [join_game] request, whatever it answers, keeps the id, the creator
    and the kind of opponent; [play_move] keeps the O player; and a seat
    taken by a player other than id 0 is kept by [join_game] too. *)
Theorem seats_are_kept commit_ok game_id move current_player rnd
    (st : db.Store) :
  let g := db.game st in
  let gm := db.game (run (routes.play_move commit_ok game_id move
                            current_player rnd) st).2 in
  let gj := db.game (run (routes.join_game commit_ok game_id
                            current_player) st).2 in
  (db.id gm = db.id g /\ db.player_x_id gm = db.player_x_id g
   /\ db.opponent_type gm = db.opponent_type g
   /\ db.player_o_id gm = db.player_o_id g)
  /\ (db.id gj = db.id g /\ db.player_x_id gj = db.player_x_id g
      /\ db.opponent_type gj = db.opponent_type g)
  /\ (forall p, db.player_o_id g = Some p -> p <> 0 ->
        db.player_o_id gj = Some p).
Proof.
  cbv zeta. split; [|split].
  - destruct (decide (db.id (db.game st) = game_id)) as [Hid|Hid];
      [|by rewrite play_move_not_found].
    destruct (validate (db.game st) current_player move) as [symbol|e] eqn:Hv;
      [|by rewrite (play_move_rejected _ _ _ _ _ _ e)].
    rewrite (play_move_accepted _ _ _ _ _ _ symbol) by done. cbv zeta.
    destruct (human_half_fields (db.game st) game_id current_player move
                symbol) as (H1 & H2 & H3 & H4 & _).
    destruct (commit_ok 0%nat); [|done].
    destruct (computer_to_move _); [|done].
    by destruct (utils.generate_computer_move _ rnd).
  - by destruct (join_game_run commit_ok game_id current_player st)
      as [[e ->]|(_ & _ & _ & _ & _ & ->)].
  - intros p Ho Hp.
    destruct (join_game_run commit_ok game_id current_player st)
      as [[e ->]|(_ & _ & _ & [Hn|Hz] & _ & _)]; [done| |]; congruence.
Qed.

Lemma seats_are_kept_witness :
  db.player_o_id (db.game joined_game) = Some 2
  /\ db.player_o_id
       (db.game (run (routes.join_game all_ok 7 3) joined_game).2) = Some 2.
Proof.
  split; [reflexivity|].
  destruct (seats_are_kept all_ok 7 first_request 3 0 joined_game)
    as (_ & _ & Hkept).
  apply Hkept; [reflexivity | discriminate].
Defined.

(** X12. [get_game] answers the stored game when the id is the game's
    and the 404 otherwise, and stores nothing; right after a [play_move]
    or a [join_game] that returned a game it answers that same game. *)
Theorem get_game_reads_the_store commit_ok game_id move current_player rnd
    (st : db.Store) :
  run (routes.get_game game_id) st
  = (if decide (db.id (db.game st) = game_id) then Ok (db.game st)
     else Raise (HTTPException 404 "Game not found"), st)
  /\ (forall g st',
        run (routes.play_move commit_ok game_id move current_player rnd) st
        = (Ok g, st') ->
        run (routes.get_game game_id) st' = (Ok g, st'))
  /\ (forall g st',
        run (routes.join_game commit_ok game_id current_player) st
        = (Ok g, st') ->
        run (routes.get_game game_id) st' = (Ok g, st')).
Proof.
  assert (Hget : forall s : db.Store,
    run (routes.get_game game_id) s
    = (if decide (db.id (db.game s) = game_id) then Ok (db.game s)
       else Raise (HTTPException 404 "Game not found"), s)).
  { intros s. unfold run, routes.get_game, mbind, M_bind, query_game_first.
    cbn [db.store db.game]. by destruct (decide _); destruct s. }
  split; [apply Hget|]. split.
  - intros g st'.
    destruct (decide (db.id (db.game st) = game_id)) as [Hid|Hid];
      [|by rewrite play_move_not_found].
    destruct (validate (db.game st) current_player move) as [symbol|e] eqn:Hv;
      [|by rewrite (play_move_rejected _ _ _ _ _ _ e)].
    rewrite (play_move_accepted _ _ _ _ _ _ symbol) by done. cbv zeta.
    destruct (human_half_fields (db.game st) game_id current_player move
                symbol) as (H1 & _).
    destruct (commit_ok 0%nat); [|done].
    destruct (computer_to_move _);
      [by destruct (utils.generate_computer_move _ rnd)|].
    intros [= <- <-]. rewrite Hget. cbn [with_move db.game].
    rewrite decide_True by (etrans; [exact H1 | exact Hid]). done.
  - intros g st'.
    destruct (join_game_run commit_ok game_id current_player st)
      as [[e ->]|(Hid & _ & _ & _ & _ & ->)]; [done|].
    intros [= <- <-]. rewrite Hget. cbn [db.game].
    rewrite decide_True by done. done.
Qed.

Lemma get_game_reads_the_store_witness :
  run (routes.get_game 7) waiting_for_o
  = (Ok (db.game waiting_for_o), waiting_for_o)
  /\ run (routes.get_game 8) waiting_for_o
     = (Raise (HTTPException 404 "Game not found"), waiting_for_o).
Proof.
  split.
  - destruct (get_game_reads_the_store all_ok 7 first_request 1 0
                (new_game "human")) as (_ & Hafter & _).
    apply (Hafter (db.game waiting_for_o) waiting_for_o). reflexivity.
  - apply (get_game_reads_the_store all_ok 8 first_request 1 0 waiting_for_o).
Defined.

(** ** The utilities *)

(** X13. On a 3x3 board [check_winner] answers X exactly when X has a
    line, O exactly when O has a line and X has none, and [None] exactly
    when neither has one: with a line of each it answers X. *)
Theorem check_winner_decides (b : Board) (Hwf : wf_board b) :
  (utils.check_winner b = Some X <-> line_of b X)
  /\ (utils.check_winner b = Some O <-> line_of b O /\ ~ line_of b X)
  /\ (utils.check_winner b = None <-> ~ line_of b X /\ ~ line_of b O).
Proof.
  split; [|split; [|by apply check_winner_None]].
  - unfold utils.check_winner, utils.first_symbol.
    rewrite <- has_line_spec, <- returns_symbol_has_line by done.
    destruct (utils.returns_symbol b X); [done|].
    destruct (utils.returns_symbol b O); split; try done; discriminate.
  - unfold utils.check_winner, utils.first_symbol.
    rewrite <- !has_line_spec, <- !returns_symbol_has_line by done.
    destruct (utils.returns_symbol b X);
      [split; [discriminate | intros [_ Hn]; by destruct Hn]|].
    destruct (utils.returns_symbol b O); split; try done;
      intros [? _]; done.
Qed.

Lemma check_winner_decides_witness :
  wf_board [[Some X; Some X; Some X]; [Some O; Some O; Some O];
            [None; None; None]]
  /\ utils.check_winner [[Some X; Some X; Some X]; [Some O; Some O; Some O];
                         [None; None; None]] = Some X
  /\ line_of [[Some X; Some X; Some X]; [Some O; Some O; Some O];
              [None; None; None]] X.
Proof.
  split; [apply wf_grid|]. split; [reflexivity|].
  apply (check_winner_decides _ (wf_grid _ _ _ _ _ _ _ _ _)). reflexivity.
Defined.

(** X14. Every empty cell of the board can be drawn by
    [generate_computer_move], and only empty cells are: the draws are
    exactly the cells of [empty_cells], taken by the index modulo their
    number. *)
Theorem every_empty_cell_can_be_drawn (b : Board) (i j : nat)
    (Hi : (i < 3)%nat) (Hj : (j < 3)%nat) (Hfree : cell_at b i j = None) :
  (exists rnd, (rnd < length (utils.empty_cells b))%nat
               /\ utils.generate_computer_move b rnd = Some (i, j))
  /\ (forall rnd, utils.generate_computer_move b rnd
                  = utils.empty_cells b
                    !! (rnd mod length (utils.empty_cells b))%nat)
  /\ NoDup (utils.empty_cells b).
Proof.
  pose proof (empty_cell_listed b i j Hi Hj Hfree) as Hin.
  split; [|split].
  - apply list_elem_of_lookup in Hin as [k Hk].
    pose proof (lookup_lt_Some _ _ _ Hk) as Hlt.
    exists k. split; [done|]. unfold utils.generate_computer_move.
    destruct (utils.empty_cells b) as [|c cs] eqn:E; [done|].
    by rewrite Nat.mod_small.
  - intros rnd. unfold utils.generate_computer_move.
    by destruct (utils.empty_cells b).
  - unfold utils.empty_cells. apply NoDup_filter. rewrite range3x3_eq.
    apply (bool_decide_unpack _). by vm_compute.
Qed.

Lemma every_empty_cell_can_be_drawn_witness :
  cell_at empty_board 1 1 = None
  /\ exists rnd, (rnd < 9)%nat
                 /\ utils.generate_computer_move empty_board rnd
                    = Some (1%nat, 1%nat).
Proof.
  split; [reflexivity|].
  apply (every_empty_cell_can_be_drawn empty_board 1 1); (lia || reflexivity).
Defined.

(** X15. On a 3x3 board [is_board_full] is true exactly when no cell in
    range is empty, which is exactly when the count of occupied cells the
    handler takes for the move number is 9; that count is never above
    9. *)
Theorem is_board_full_iff (b : Board) (Hwf : wf_board b) :
  (utils.is_board_full b = true <->
   forall i j, (i < 3)%nat -> (j < 3)%nat -> cell_at b i j <> None)
  /\ (utils.is_board_full b = true <-> routes.count_occupied b = 9%nat)
  /\ (routes.count_occupied b <= 9)%nat.
Proof.
  split; [|split; [by apply full_iff_nine | by apply count_occupied_le]].
  rewrite full_iff_no_empty by done. split.
  - intros Hnone i j Hi Hj Hc.
    pose proof (empty_cell_listed b i j Hi Hj Hc) as Hin.
    rewrite Hnone in Hin. by apply elem_of_nil in Hin.
  - intros Hall. destruct (utils.empty_cells b) as [|[i j] cs] eqn:E; [done|].
    assert (Hin : (i, j) ∈ utils.empty_cells b) by (rewrite E; left).
    apply elem_of_empty_cells in Hin as (Hi & Hj & Hc).
    by destruct (Hall i j Hi Hj).
Qed.

Lemma is_board_full_iff_witness :
  wf_board empty_board /\ utils.is_board_full empty_board = false
  /\ (routes.count_occupied empty_board <= 9)%nat.
Proof.
  split; [apply wf_empty_board|]. split; [reflexivity|].
  apply (is_board_full_iff empty_board wf_empty_board).
Defined.

(** ** Accounts *)

Lemma first_by_username_None players u :
  routes.first_by_username players u = None <->
  u ∉ (db.Player.username <$> players).
Proof.
  unfold routes.first_by_username. rewrite list_find_None, Forall_forall.
  rewrite list_elem_of_fmap. split.
  - intros Hall (p & -> & Hp). by apply (Hall p).
  - intros Hn p Hp Hu. apply Hn. by exists p.
Qed.

Lemma first_by_id_Some players q i p :
  routes.first_by_id players q = Some (i, p) ->
  players !! i = Some p /\ db.Player.id p = q.
Proof.
  unfold routes.first_by_id. intros (Hi & Hp & _)%list_find_Some.
  split; [exact Hi | exact Hp].
Qed.

Lemma NoDup_insert_fresh {A} (l : list A) i x :
  NoDup l -> x ∉ l -> NoDup (<[i := x]> l).
Proof.
  intros Hl. revert i. induction Hl as [|a l Ha Hl IH]; intros i Hx;
    [destruct i; constructor|].
  apply not_elem_of_cons in Hx as [Hxa Hxl].
  destruct i as [|i].
  - change (NoDup (x :: l)). by constructor.
  - change (NoDup (a :: <[i := x]> l)). constructor; [|by apply IH].
    intros Hin. apply list_elem_of_lookup in Hin as [j Hj].
    destruct (decide (i = j)) as [->|Hne].
    + destruct (decide (j < length l)%nat).
      * rewrite list_lookup_insert_eq in Hj by done. congruence.
      * rewrite list_insert_ge in Hj by lia.
        apply Ha. by apply list_elem_of_lookup_2 in Hj.
    + rewrite list_lookup_insert_ne in Hj by done.
      apply Ha. by apply list_elem_of_lookup_2 in Hj.
Qed.

Lemma update_player_table player_id update current_player password_hash
    commit_ok players :
  let out := (routes.update_player player_id update current_player
                password_hash commit_ok players).2 in
  out = players
  \/ exists i p p',
       players !! i = Some p /\ out = <[i := p']> players
       /\ db.Player.id p' = db.Player.id p
       /\ (db.Player.username p' = db.Player.username p
           \/ db.Player.username p' ∉ (db.Player.username <$> players)).
Proof.
  cbv zeta. unfold routes.update_player.
  destruct (bool_decide (player_id = current_player)); cbn [negb]; [|by left].
  destruct (routes.first_by_id players player_id) as [[i p]|] eqn:Ef;
    [|by left].
  apply first_by_id_Some in Ef as [Hi Hid].
  destruct (routes.given (models.PlayerUpdate.username update)) as [u|].
  - destruct (routes.first_by_username players u) as [?|] eqn:Eu; [by left|].
    apply first_by_username_None in Eu.
    destruct commit_ok; [|by left]. right.
    destruct (routes.given (models.PlayerUpdate.password update));
      eexists i, p, _; (split; [done|]); (split; [done|]);
      (split; [done|]); by right.
  - destruct commit_ok; [|by left]. right.
    destruct (routes.given (models.PlayerUpdate.password update));
      eexists i, p, _; (split; [done|]); (split; [done|]);
      (split; [done|]); by left.
Qed.

Lemma accounts_reachable_NoDup players :
  accounts_reachable players ->
  NoDup (db.Player.username <$> players)
  /\ NoDup (db.Player.id <$> players).
Proof.
  intros Hreach.
  induction Hreach as [|user new_id h ok players Hr [IHu IHi] Hfresh
                      |pid update cur h ok players Hr [IHu IHi]].
  - split; constructor.
  - unfold routes.register.
    destruct (routes.first_by_username players _) as [?|] eqn:Eu; [done|].
    apply first_by_username_None in Eu.
    destruct ok; [|done]. cbn [snd]. rewrite !fmap_app. cbn [fmap list_fmap].
    split; apply NoDup_app; (split; [done|]);
      (split; [|apply NoDup_singleton]);
      intros x Hx ->%list_elem_of_singleton; done.
  - destruct (update_player_table pid update cur h ok players)
      as [->|(i & p & p' & Hi & -> & Hid & Hname)]; [done|].
    rewrite !list_fmap_insert. split.
    + destruct Hname as [->|Hfresh].
      * rewrite list_insert_id; [done|]. by rewrite list_lookup_fmap, Hi.
      * by apply NoDup_insert_fresh.
    + rewrite Hid, list_insert_id; [done|]. by rewrite list_lookup_fmap, Hi.
Qed.

(** X16. In every [players] table the account handlers reach, no two
    rows share a username and no two share an id. *)
Theorem usernames_are_unique (players : list db.Player.t)
    (Hreach : accounts_reachable players) :
  NoDup (db.Player.username <$> players)
  /\ NoDup (db.Player.id <$> players).
Proof. by apply accounts_reachable_NoDup. Qed.

Lemma usernames_are_unique_witness :
  accounts_reachable
    (routes.register
       {| models.PlayerCreate.username := "ann";
          models.PlayerCreate.password := "pw" |} 1 "h1" true []).2
  /\ NoDup (db.Player.username <$>
            (routes.register
               {| models.PlayerCreate.username := "ann";
                  models.PlayerCreate.password := "pw" |} 1 "h1" true []).2).
Proof.
  assert (Hr : accounts_reachable
                 (routes.register
                    {| models.PlayerCreate.username := "ann";
                       models.PlayerCreate.password := "pw" |} 1 "h1" true
                    []).2).
  { apply acc_register; [apply acc_empty | apply not_elem_of_nil]. }
  split; [exact Hr|]. apply (usernames_are_unique _ Hr).
Defined.

Lemma first_by_id_None players q :
  routes.first_by_id players q = None <-> q ∉ (db.Player.id <$> players).
Proof.
  unfold routes.first_by_id. rewrite list_find_None, Forall_forall.
  rewrite list_elem_of_fmap. split.
  - intros Hall (p & -> & Hp). by apply (Hall p).
  - intros Hn p Hp Hu. apply Hn. by exists p.
Qed.

(** X17. [register] answers "Username taken" (400) and leaves the table
    as it is when a row has the username.  Otherwise, the commit
    succeeding, it returns the new id with the username and adds one row:
    [get_player] on the new id then returns that player, [get_player] on
    any other id answers as before, and [login] with that username
    succeeds with every password that verifies against the stored
    hash. *)
Theorem register_then_read (user : models.PlayerCreate.t) (new_id : Z)
    (password_hash : string) (players : list db.Player.t)
    (Hfresh : new_id ∉ (db.Player.id <$> players)) :
  let name := models.PlayerCreate.username user in
  let r := routes.register user new_id password_hash true players in
  (name ∈ (db.Player.username <$> players) ->
   forall commit_ok,
     routes.register user new_id password_hash commit_ok players
     = (Raise (HTTPException 400 "Username taken"), players))
  /\ (name ∉ (db.Player.username <$> players) ->
      r = (Ok {| models.Player.id := new_id; models.Player.username := name |},
           players ++ [{| db.Player.id := new_id; db.Player.username := name;
                          db.Player.password_hash := password_hash |}])
      /\ routes.get_player new_id r.2
         = Ok {| models.Player.id := new_id; models.Player.username := name |}
      /\ (forall q, q <> new_id ->
            routes.get_player q r.2 = routes.get_player q players)
      /\ (forall verify_password password token,
            verify_password password password_hash = true ->
            routes.login verify_password name password token r.2
            = Ok {| models.Token.access_token := token;
                    models.Token.token_type := "bearer" |})).
Proof.
  cbv zeta. split.
  - intros Hin commit_ok. unfold routes.register.
    destruct (routes.first_by_username players _) as [?|] eqn:E; [done|].
    apply first_by_username_None in E. done.
  - intros Hnew. unfold routes.register.
    pose proof (proj2 (first_by_username_None _ _) Hnew) as ->.
    cbn [fst snd]. split; [done|].
    pose proof (proj2 (first_by_id_None _ _) Hfresh) as Hid.
    split; [|split].
    + unfold routes.get_player, routes.first_by_id in *.
      rewrite list_find_app_r by done. cbn.
      rewrite decide_True by done. done.
    + intros q Hq. unfold routes.get_player, routes.first_by_id.
      destruct (list_find (fun p => db.Player.id p = q) players)
        as [[i p]|] eqn:E.
      * by rewrite (list_find_app_l _ _ _ _ _ E).
      * rewrite list_find_app_r by done. cbn.
        rewrite decide_False by (cbn; congruence). done.
    + intros verify_password password token Hver.
      unfold routes.login, routes.first_by_username in *.
      rewrite list_find_app_r
        by (by apply (proj2 (first_by_username_None _ _))).
      cbn. rewrite decide_True by done. cbn. by rewrite Hver.
Qed.

Lemma register_then_read_witness :
  (1 ∉ fmap db.Player.id (@nil db.Player.t))
  /\ routes.get_player 1
       (routes.register
          {| models.PlayerCreate.username := "ann";
             models.PlayerCreate.password := "pw" |} 1 "h1" true []).2
     = Ok {| models.Player.id := 1; models.Player.username := "ann" |}.
Proof.
  split; [apply not_elem_of_nil|].
  apply (register_then_read
           {| models.PlayerCreate.username := "ann";
              models.PlayerCreate.password := "pw" |} 1 "h1" []
           (not_elem_of_nil 1)).
  apply not_elem_of_nil.
Defined.

(** X18. [update_player] answers 403 to every request for another
    player's id before it looks at anything else, and "Username taken"
    (400) when the new username is in the table, the player's own present
    name included; an absent or empty username or password leaves that
    field alone.  Whatever it answers, the table keeps its length, its
    ids in their order, and every row of another id as it is. *)
Theorem update_player_outcomes (player_id : Z) (update : models.PlayerUpdate.t)
    (current_player : Z) (password_hash : string) (commit_ok : bool)
    (players : list db.Player.t) :
  let r := routes.update_player player_id update current_player password_hash
             commit_ok players in
  (player_id <> current_player ->
   r = (Raise (HTTPException 403 "Can only update your own user"), players))
  /\ (forall u, player_id = current_player ->
        player_id ∈ (db.Player.id <$> players) ->
        routes.given (models.PlayerUpdate.username update) = Some u ->
        u ∈ (db.Player.username <$> players) ->
        r = (Raise (HTTPException 400 "Username taken"), players))
  /\ (routes.given (models.PlayerUpdate.username update) = None ->
      db.Player.username <$> r.2 = db.Player.username <$> players)
  /\ (routes.given (models.PlayerUpdate.password update) = None ->
      db.Player.password_hash <$> r.2 = db.Player.password_hash <$> players)
  /\ db.Player.id <$> r.2 = db.Player.id <$> players
  /\ (forall j p, players !! j = Some p -> db.Player.id p <> player_id ->
        r.2 !! j = Some p).
Proof.
  cbv zeta. unfold routes.update_player.
  destruct (bool_decide (player_id = current_player)) eqn:Eid; cbn [negb].
  2:{ apply bool_decide_eq_false in Eid.
      repeat split; try done; intros; congruence. }
  apply bool_decide_eq_true in Eid.
  split; [done|].
  destruct (routes.first_by_id players player_id) as [[i p]|] eqn:Ef.
  2:{ apply first_by_id_None in Ef. repeat split; done. }
  apply first_by_id_Some in Ef as [Hi Hid].
  assert (Hins : forall p', db.Player.id p' = db.Player.id p ->
            db.Player.id <$> <[i := p']> players = db.Player.id <$> players).
  { intros p' Hp'. rewrite list_fmap_insert, Hp'.
    apply list_insert_id. by rewrite list_lookup_fmap, Hi. }
  assert (Hother : forall p' j q, players !! j = Some q ->
            db.Player.id q <> player_id -> <[i := p']> players !! j = Some q).
  { intros p' j q Hj Hq. rewrite list_lookup_insert_ne; [done|].
    intros ->. congruence. }
  assert (Hname : forall p', db.Player.username p' = db.Player.username p ->
            db.Player.username <$> <[i := p']> players
            = db.Player.username <$> players).
  { intros p' Hp'. rewrite list_fmap_insert, Hp'.
    apply list_insert_id. by rewrite list_lookup_fmap, Hi. }
  assert (Hhash : forall p',
            db.Player.password_hash p' = db.Player.password_hash p ->
            db.Player.password_hash <$> <[i := p']> players
            = db.Player.password_hash <$> players).
  { intros p' Hp'. rewrite list_fmap_insert, Hp'.
    apply list_insert_id. by rewrite list_lookup_fmap, Hi. }
  destruct (routes.given (models.PlayerUpdate.username update)) as [u|] eqn:Eu.
  - destruct (routes.first_by_username players u) as [?|] eqn:Ex.
    + repeat split; try done.
    + apply first_by_username_None in Ex.
      destruct (routes.given (models.PlayerUpdate.password update)) eqn:Ep;
        destruct commit_ok; cbn [fst snd];
        (split; [intros u' _ _ [= <-] Hin; done|]);
        (split; [done|]); (split; [try done; by intros; apply Hhash|]);
        (split; [try done; by apply Hins|]); try done; by eauto.
  - destruct (routes.given (models.PlayerUpdate.password update)) eqn:Ep;
      destruct commit_ok; cbn [fst snd];
      (split; [done|]);
      (split; [try done; by intros; apply Hname|]);
      (split; [try done; by intros; apply Hhash|]);
      (split; [try done; by apply Hins|]); try done; by eauto.
Qed.

Lemma update_player_outcomes_witness :
  routes.update_player 1
    {| models.PlayerUpdate.username := Some "ann";
       models.PlayerUpdate.password := None |} 1 "h2" true
    [{| db.Player.id := 1; db.Player.username := "ann";
        db.Player.password_hash := "h1" |}]
  = (Raise (HTTPException 400 "Username taken"),
     [{| db.Player.id := 1; db.Player.username := "ann";
         db.Player.password_hash := "h1" |}]).
Proof.
  destruct (update_player_outcomes 1
              {| models.PlayerUpdate.username := Some "ann";
                 models.PlayerUpdate.password := None |} 1 "h2" true
              [{| db.Player.id := 1; db.Player.username := "ann";
                  db.Player.password_hash := "h1" |}])
    as (_ & Htaken & _).
  apply (Htaken "ann"); [reflexivity | | reflexivity |];
    apply list_elem_of_here.
Defined.

Lemma first_by_username_unique players i p :
  NoDup (db.Player.username <$> players) ->
  players !! i = Some p ->
  routes.first_by_username players (db.Player.username p) = Some (i, p).
Proof.
  intros Hnd Hi. unfold routes.first_by_username. apply list_find_Some.
  split; [done|]. split; [done|]. intros j q Hj Hlt Hq.
  assert (i = j); [|lia].
  apply (NoDup_lookup _ _ _ (db.Player.username p) Hnd);
    rewrite list_lookup_fmap; [by rewrite Hi|].
  rewrite Hj. cbn. f_equal. exact Hq.
Qed.

(** X19. [login] has one error, 401 "Incorrect username or password",
    the same for an unknown username and for a wrong password.  On a
    table the account handlers reach it returns the bearer token exactly
    when the table has a row with that username whose stored hash the
    password verifies against. *)
Theorem login_outcomes (verify_password : string -> string -> bool)
    (username password token : string) (players : list db.Player.t)
    (Hreach : accounts_reachable players) :
  let r := routes.login verify_password username password token players in
  (r = Ok {| models.Token.access_token := token;
             models.Token.token_type := "bearer" |}
   \/ r = Raise (HTTPException 401 "Incorrect username or password"))
  /\ (r = Ok {| models.Token.access_token := token;
                models.Token.token_type := "bearer" |}
      <-> exists p, p ∈ players /\ db.Player.username p = username
                    /\ verify_password password (db.Player.password_hash p)
                       = true).
Proof.
  destruct (accounts_reachable_NoDup _ Hreach) as [Hnd _]. cbv zeta.
  unfold routes.login.
  destruct (routes.first_by_username players username) as [[i p]|] eqn:E.
  - pose proof E as (Hi & Hp & _)%list_find_Some. cbn beta in Hp.
    destruct (verify_password password (db.Player.password_hash p)) eqn:Ev;
      cbn [negb].
    + split; [by left|]. split; [|done]. intros _. exists p.
      split; [by eapply list_elem_of_lookup_2|done].
    + split; [by right|]. split; [discriminate|].
      intros (q & Hq & Hu & Hv).
      apply list_elem_of_lookup in Hq as [j Hj].
      pose proof (first_by_username_unique _ _ _ Hnd Hj) as E'.
      rewrite Hu, E in E'. injection E' as _ ->. congruence.
  - apply first_by_username_None in E.
    split; [by right|]. split; [discriminate|].
    intros (q & Hq & Hu & _). exfalso. apply E.
    apply list_elem_of_fmap. by exists q.
Qed.

Lemma login_outcomes_witness :
  accounts_reachable
    (routes.register
       {| models.PlayerCreate.username := "ann";
          models.PlayerCreate.password := "pw" |} 1 "h1" true []).2
  /\ routes.login String.eqb "bob" "pw" "t"
       (routes.register
          {| models.PlayerCreate.username := "ann";
             models.PlayerCreate.password := "pw" |} 1 "h1" true []).2
     <> Ok {| models.Token.access_token := "t";
              models.Token.token_type := "bearer" |}.
Proof.
  assert (Hr : accounts_reachable
                 (routes.register
                    {| models.PlayerCreate.username := "ann";
                       models.PlayerCreate.password := "pw" |} 1 "h1" true
                    []).2).
  { apply acc_register; [apply acc_empty | apply not_elem_of_nil]. }
  split; [exact Hr|].
  destruct (login_outcomes String.eqb "bob" "pw" "t" _ Hr) as [_ Hiff].
  intros Hok. apply Hiff in Hok as (p & Hp & Hu & _).
  apply list_elem_of_singleton in Hp as ->. discriminate Hu.
Defined.

(** ** Leaderboard *)

Lemma insert_entry_perm e l : routes.insert_entry e l ≡ₚ e :: l.
Proof.
  induction l as [|h t IH]; cbn [routes.insert_entry]; [done|].
  destruct (_ <=? _)%nat; [done|]. rewrite IH. apply Permutation_swap.
Qed.

Lemma sort_by_score_perm l : routes.sort_by_score l ≡ₚ l.
Proof.
  induction l as [|e l IH]; [done|].
  cbn [routes.sort_by_score foldr]. fold (routes.sort_by_score l).
  by rewrite insert_entry_perm, IH.
Qed.

Lemma StronglySorted_lookup_lt {A} (R : relation A) l :
  StronglySorted R l ->
  forall i j x y, (i < j)%nat -> l !! i = Some x -> l !! j = Some y -> R x y.
Proof.
  induction 1 as [|a l Hl IH Hall]; intros i j x y Hij Hi Hj; [done|].
  destruct j as [|j]; [lia|]. cbn in Hj.
  destruct i as [|i]; cbn in Hi.
  - injection Hi as <-. rewrite Forall_forall in Hall. apply Hall.
    by eapply list_elem_of_lookup_2.
  - apply (IH i j); [lia|done|done].
Qed.

Lemma insert_entry_sorted e l :
  StronglySorted by_score l -> StronglySorted by_score (routes.insert_entry e l).
Proof.
  induction 1 as [|h t Ht IH Hall]; cbn [routes.insert_entry].
  - repeat constructor.
  - destruct (_ <=? _)%nat eqn:E.
    + apply Nat.leb_le in E. constructor; [by constructor|].
      constructor; [done|]. eapply Forall_impl; [exact Hall|].
      intros x Hx. unfold by_score in *. lia.
    + apply Nat.leb_gt in E. constructor; [done|].
      rewrite insert_entry_perm. constructor; [|done].
      unfold by_score. lia.
Qed.

Lemma sort_by_score_sorted l : StronglySorted by_score (routes.sort_by_score l).
Proof.
  induction l as [|e l IH]; [constructor|].
  cbn [routes.sort_by_score foldr]. by apply insert_entry_sorted.
Qed.

Lemma insert_entry_filter k e l :
  StronglySorted by_score l ->
  filter (fun x => models.LeaderboardEntry.score x = k)
         (routes.insert_entry e l)
  = filter (fun x => models.LeaderboardEntry.score x = k) (e :: l).
Proof.
  induction 1 as [|h t Ht IH Hall]; cbn [routes.insert_entry]; [done|].
  destruct (_ <=? _)%nat eqn:E; [done|]. apply Nat.leb_gt in E.
  rewrite (filter_cons _ h), IH, !(filter_cons _ e), (filter_cons _ h).
  destruct (decide (models.LeaderboardEntry.score h = k));
    destruct (decide (models.LeaderboardEntry.score e = k)); try done.
  lia.
Qed.

(** X20. [leaderboard] returns one entry for each row of the [players]
    table, with that row's id and username and its number of wins, in
    the order of the scores, highest first; entries of equal score keep
    the order of the table. *)
Theorem leaderboard_is_sorted (players : list db.Player.t)
    (games : list db.Game) :
  let board := routes.leaderboard players games in
  board ≡ₚ (routes.entry_of games <$> players)
  /\ (forall i j e1 e2, (i < j)%nat -> board !! i = Some e1 ->
        board !! j = Some e2 ->
        (models.LeaderboardEntry.score e2 <= models.LeaderboardEntry.score e1)%nat)
  /\ (forall k,
        filter (fun e => models.LeaderboardEntry.score e = k) board
        = filter (fun e => models.LeaderboardEntry.score e = k)
                 (routes.entry_of games <$> players))
  /\ (forall e, e ∈ board ->
        models.LeaderboardEntry.score e
        = routes.wins games (models.LeaderboardEntry.player_id e)
        /\ exists p, p ∈ players
             /\ models.LeaderboardEntry.player_id e = db.Player.id p
             /\ models.LeaderboardEntry.username e = db.Player.username p).
Proof.
  cbv zeta. unfold routes.leaderboard.
  split; [apply sort_by_score_perm|]. split; [|split].
  - intros i j e1 e2 Hij H1 H2.
    pose proof (sort_by_score_sorted (routes.entry_of games <$> players)) as Hs.
    apply (StronglySorted_lookup_lt _ _ Hs i j e1 e2 Hij H1 H2).
  - intros k. induction (routes.entry_of games <$> players) as [|e l IH];
      [done|].
    cbn [routes.sort_by_score foldr]. fold (routes.sort_by_score l).
    rewrite insert_entry_filter by apply sort_by_score_sorted.
    rewrite !filter_cons, IH. done.
  - intros e He. rewrite sort_by_score_perm in He.
    apply list_elem_of_fmap in He as (p & -> & Hp).
    split; [done|]. by exists p.
Qed.

Lemma won_unique g p q : won g p -> won g q -> p = q.
Proof.
  intros [[Hp Hw]|[Hp Hw]] [[Hq Hw']|[Hq Hw']]; congruence.
Qed.

Lemma wins_cons g games p :
  routes.wins (g :: games) p
  = ((if decide (won g p) then 1 else 0) + routes.wins games p)%nat.
Proof.
  unfold routes.wins, won. rewrite !filter_cons.
  destruct (decide (db.player_x_id g = p /\ db.winner g = Some (Won X)))
    as [[Hx Hw]|Hx];
    destruct (decide (db.player_o_id g = Some p /\ db.winner g = Some (Won O)))
      as [[Ho Hw']|Ho]; try congruence.
  - rewrite decide_True by (left; done). cbn [length]. lia.
  - rewrite decide_True by (right; done). cbn [length]. lia.
  - rewrite decide_False by tauto. done.
Qed.

Lemma wins_app games g p :
  routes.wins (games ++ [g]) p
  = (routes.wins games p + (if decide (won g p) then 1 else 0))%nat.
Proof.
  induction games as [|h games IH].
  - cbn [app]. rewrite wins_cons. unfold routes.wins. cbn. lia.
  - cbn [app]. rewrite !wins_cons, IH. lia.
Qed.

(** X21. The score of a player counts the games that player won: a new
    game adds one to the score of the X player when X won it, or to the
    score of the O player when O won it, and nothing to any other score;
    a game scores for at most one player; a draw, an unfinished game and
    a win of O without an O player score for nobody. *)
Theorem wins_count_won_games (games : list db.Game) (g : db.Game) (p : Z) :
  routes.wins [] p = 0%nat
  /\ routes.wins (games ++ [g]) p
     = (routes.wins games p + (if decide (won g p) then 1 else 0))%nat
  /\ (forall q, won g p -> won g q -> p = q)
  /\ (db.winner g = None \/ db.winner g = Some Draw -> ~ won g p)
  /\ (db.winner g = Some (Won O) -> db.player_o_id g = None -> ~ won g p).
Proof.
  split; [reflexivity|]. split; [apply wins_app|].
  split; [intros q; apply won_unique|].
  split.
  - intros [Hw|Hw] [[_ Hw']|[_ Hw']]; congruence.
  - intros Hw Ho [[_ Hw']|[Ho' _]]; congruence.
Qed.

Lemma sum_indicator_le (P : Z -> Prop) `{!forall p, Decision (P p)} ids :
  NoDup ids -> (forall p q, P p -> P q -> p = q) ->
  (sum_list_with (fun p => if decide (P p) then 1 else 0) ids <= 1)%nat.
Proof.
  intros Hnd Huniq. induction Hnd as [|p ids Hp Hnd IH]; cbn; [lia|].
  destruct (decide (P p)) as [HP|]; [|lia].
  assert (sum_list_with (fun q => if decide (P q) then 1 else 0) ids = 0)%nat
    as ->; [|lia].
  clear IH. induction ids as [|q ids IH]; [done|]. cbn.
  apply not_elem_of_cons in Hp as [Hpq Hp].
  apply NoDup_cons in Hnd as [_ Hnd].
  destruct (decide (P q)) as [HQ|]; [destruct Hpq; by apply Huniq|].
  by apply IH.
Qed.

Lemma total_wins_le games ids :
  NoDup ids -> (sum_list_with (routes.wins games) ids <= length games)%nat.
Proof.
  intros Hnd. induction games as [|g games IH].
  - induction ids as [|p ids IHi]; [done|].
    apply NoDup_cons in Hnd as [_ Hnd]. specialize (IHi Hnd).
    cbn [sum_list_with length] in *.
    change (routes.wins [] p) with 0%nat. lia.
  - assert (Hsplit : forall l,
      sum_list_with (routes.wins (g :: games)) l
      = (sum_list_with (fun p => if decide (won g p) then 1 else 0) l
         + sum_list_with (routes.wins games) l)%nat).
    { induction l as [|p l IHl]; [done|].
      cbn [sum_list_with]. rewrite IHl, wins_cons. lia. }
    rewrite Hsplit. cbn [length].
    pose proof (sum_indicator_le (won g) ids Hnd (won_unique g)). lia.
Qed.

(** X22. When the rows of the [players] table have different ids, the
    scores of the leaderboard add up to no more than the number of
    games. *)
Theorem scores_add_up (players : list db.Player.t) (games : list db.Game)
    (Hids : NoDup (db.Player.id <$> players)) :
  (sum_list_with models.LeaderboardEntry.score
     (routes.leaderboard players games) <= length games)%nat.
Proof.
  unfold routes.leaderboard. rewrite sort_by_score_perm.
  pose proof (total_wins_le games _ Hids) as Hle.
  assert (sum_list_with models.LeaderboardEntry.score
            (routes.entry_of games <$> players)
          = sum_list_with (routes.wins games) (db.Player.id <$> players)) as ->;
    [|done].
  clear. induction players as [|p players IH]; [done|].
  cbn [fmap list_fmap sum_list_with]. by rewrite IH.
Qed.


Lemma leaderboard_is_sorted_witness :
  routes.leaderboard
    [{| db.Player.id := 1; db.Player.username := "ann";
        db.Player.password_hash := "h1" |};
     {| db.Player.id := 2; db.Player.username := "bob";
        db.Player.password_hash := "h2" |}]
    [db.game finished_game]
  ≡ₚ [{| models.LeaderboardEntry.player_id := 1;
         models.LeaderboardEntry.username := "ann";
         models.LeaderboardEntry.score := 1 |};
      {| models.LeaderboardEntry.player_id := 2;
         models.LeaderboardEntry.username := "bob";
         models.LeaderboardEntry.score := 0 |}].
Proof.
  apply (leaderboard_is_sorted
           [{| db.Player.id := 1; db.Player.username := "ann";
               db.Player.password_hash := "h1" |};
            {| db.Player.id := 2; db.Player.username := "bob";
               db.Player.password_hash := "h2" |}]
           [db.game finished_game]).
Defined.

Lemma wins_count_won_games_witness :
  routes.wins ([] ++ [db.game finished_game]) 1 = 1%nat
  /\ routes.wins ([] ++ [db.game finished_game]) 2 = 0%nat.
Proof.
  split.
  - destruct (wins_count_won_games [] (db.game finished_game) 1)
      as (_ & Hadd & _). rewrite Hadd. reflexivity.
  - destruct (wins_count_won_games [] (db.game finished_game) 2)
      as (_ & Hadd & _). rewrite Hadd. reflexivity.
Defined.

Lemma scores_add_up_witness :
  NoDup (db.Player.id <$>
         [{| db.Player.id := 1; db.Player.username := "ann";
             db.Player.password_hash := "h1" |};
          {| db.Player.id := 2; db.Player.username := "bob";
             db.Player.password_hash := "h2" |}])
  /\ (sum_list_with models.LeaderboardEntry.score
        (routes.leaderboard
           [{| db.Player.id := 1; db.Player.username := "ann";
               db.Player.password_hash := "h1" |};
            {| db.Player.id := 2; db.Player.username := "bob";
               db.Player.password_hash := "h2" |}]
           [db.game finished_game]) <= 1)%nat.
Proof.
  assert (Hnd : NoDup (db.Player.id <$>
         [{| db.Player.id := 1; db.Player.username := "ann";
             db.Player.password_hash := "h1" |};
          {| db.Player.id := 2; db.Player.username := "bob";
             db.Player.password_hash := "h2" |}]))
    by (apply (bool_decide_unpack _); reflexivity).
  split; [exact Hnd|].
  apply (scores_add_up _ [db.game finished_game] Hnd).
Defined.

(** ** The leaderboard of reachable games *)

Lemma sort_by_score_const k l :
  Forall (fun e => models.LeaderboardEntry.score e = k) l ->
  routes.sort_by_score l = l.
Proof.
  induction 1 as [|e l He Hl IH]; [done|].
  cbn [routes.sort_by_score foldr]. fold (routes.sort_by_score l).
  rewrite IH. destruct Hl as [|h t Hh _]; [done|]. cbn [routes.insert_entry].
  by rewrite He, Hh, Nat.leb_refl.
Qed.

Lemma wins_none games p :
  (forall g, g ∈ games -> db.winner g = None) -> routes.wins games p = 0%nat.
Proof.
  induction games as [|g games IH]; intros Hw; [done|].
  rewrite wins_cons, IH by (intros g' Hg'; apply Hw; by right).
  rewrite decide_False; [done|].
  intros [[_ Hx]|[_ Ho]]; rewrite (Hw g) in *; by try left.
Qed.

(** X23. No reachable game scores: a game the handlers reach has no
    winner, so no player has won it, every player has 0 wins, and the
    leaderboard over any number of reachable games lists the players in
    the order of the table, each with the score 0. *)
Theorem reachable_games_score_nothing (players : list db.Player.t)
    (games : list db.Game)
    (Hgames : forall g, g ∈ games -> exists st, reachable st /\ db.game st = g) :
  (forall g p, g ∈ games -> ~ won g p)
  /\ (forall p, routes.wins games p = 0%nat)
  /\ routes.leaderboard players games
     = (fun p => {| models.LeaderboardEntry.player_id := db.Player.id p;
                    models.LeaderboardEntry.username := db.Player.username p;
                    models.LeaderboardEntry.score := 0 |}) <$> players.
Proof.
  assert (Hw : forall g, g ∈ games -> db.winner g = None).
  { intros g (st & Hst & <-)%Hgames.
    apply c_winner. by apply reachable_consistent. }
  split.
  { intros g p Hg [[_ Hx]|[_ Ho]]; rewrite (Hw g Hg) in *; done. }
  split; [intros p; by apply wins_none|].
  unfold routes.leaderboard.
  assert (Heq : routes.entry_of games <$> players
                = (fun p =>
                     {| models.LeaderboardEntry.player_id := db.Player.id p;
                        models.LeaderboardEntry.username := db.Player.username p;
                        models.LeaderboardEntry.score := 0 |}) <$> players).
  { apply list_fmap_ext. intros _ p _. unfold routes.entry_of.
    by rewrite wins_none. }
  rewrite Heq. apply (sort_by_score_const 0%nat).
  apply Forall_fmap, Forall_forall. done.
Qed.

Lemma reachable_games_score_nothing_witness :
  (forall g, g ∈ [db.game top_row_final; db.game human_move_alone] ->
     exists st, reachable st /\ db.game st = g)
  /\ routes.leaderboard
       [{| db.Player.id := 2; db.Player.username := "bob";
           db.Player.password_hash := "h2" |};
        {| db.Player.id := 1; db.Player.username := "ann";
           db.Player.password_hash := "h1" |}]
       [db.game top_row_final; db.game human_move_alone]
     = [{| models.LeaderboardEntry.player_id := 2;
           models.LeaderboardEntry.username := "bob";
           models.LeaderboardEntry.score := 0 |};
        {| models.LeaderboardEntry.player_id := 1;
           models.LeaderboardEntry.username := "ann";
           models.LeaderboardEntry.score := 0 |}].
Proof.
  assert (Hgames : forall g,
            g ∈ [db.game top_row_final; db.game human_move_alone] ->
            exists st, reachable st /\ db.game st = g).
  { intros g Hg. apply elem_of_cons in Hg as [->|Hg].
    - exists top_row_final. split; [apply top_row_final_reachable | done].
    - apply list_elem_of_singleton in Hg as ->. exists human_move_alone.
      split; [|done].
      apply (reach_move all_ok 7 first_request 1 3 (new_game "computer")).
      apply new_game_reachable. by right. }
  split; [exact Hgames|].
  destruct (reachable_games_score_nothing
              [{| db.Player.id := 2; db.Player.username := "bob";
                  db.Player.password_hash := "h2" |};
               {| db.Player.id := 1; db.Player.username := "ann";
                  db.Player.password_hash := "h1" |}]
              [db.game top_row_final; db.game human_move_alone] Hgames)
    as (_ & _ & Hboard).
  exact Hboard.
Defined.

(** ** A new game *)

(** X24. [create_game] accepts exactly the opponent types "human" and
    "computer" and ignores the player ids of the request body: the
    creator is the authenticated player and the O seat is empty.  In the
    new game the creator's first move on any cell in range, the commit
    succeeding, logs its row and passes the turn to O; the board stored
    stays empty.  The request returns the game, with that empty board,
    when the opponent is human, and ends in [IntegrityError] when the
    opponent is the computer. *)
Theorem new_game_first_move (game : models.GameCreate) (current_player : Z)
    (new_id : Z) (commit_ok : nat -> bool) (move : models.Move) (rnd : nat)
    (Hin : in_range move = true) (Hok : commit_ok 0%nat = true) :
  let kind := models.opponent_type game in
  let st := {| db.game :=
                 {| db.id := new_id; db.player_x_id := current_player;
                    db.player_o_id := None; db.board := empty_board;
                    db.turn := X; db.winner := None; db.complete := false;
                    db.opponent_type := kind |};
               db.moves := [] |} in
  let st1 := {| db.game := db.set_turn (db.game st) O;
                db.moves :=
                  [{| db.game_id := new_id;
                      db.player_id := Some current_player;
                      db.x := models.x move; db.y := models.y move;
                      db.symbol := X; db.move_number := 1%nat |}] |} in
  let r := run (routes.play_move commit_ok new_id move current_player rnd) st in
  (kind <> "human" -> kind <> "computer" ->
   routes.create_game game current_player new_id
   = Raise (HTTPException 400
              "Invalid opponent type: must be 'human' or 'computer'"))
  /\ (kind = "human" \/ kind = "computer" ->
      routes.create_game game current_player new_id = Ok st)
  /\ (kind = "human" -> r = (Ok (db.game st1), st1))
  /\ (kind = "computer" -> r = (Raise IntegrityError, st1)).
Proof.
  cbv zeta.
  set (st := {| db.game := {| db.id := new_id; db.opponent_type := _ |};
                db.moves := [] |}).
  assert (Hcreate : models.opponent_type game = "human"
                    \/ models.opponent_type game = "computer" ->
                    routes.create_game game current_player new_id = Ok st).
  { intros Hk. unfold routes.create_game.
    assert (bool_decide (models.opponent_type game = "human")
            || bool_decide (models.opponent_type game = "computer") = true)
      as ->; [|done].
    destruct Hk as [-> | ->]; reflexivity. }
  split.
  { intros Hh Hc. unfold routes.create_game.
    by rewrite !bool_decide_eq_false_2. }
  split; [exact Hcreate|].
  assert (Hrun : models.opponent_type game = "human"
                 \/ models.opponent_type game = "computer" ->
    run (routes.play_move commit_ok new_id move current_player rnd) st
    = (if computer_to_move (db.set_turn (db.game st) O)
       then Raise IntegrityError else Ok (db.set_turn (db.game st) O),
       {| db.game := db.set_turn (db.game st) O;
          db.moves :=
            [{| db.game_id := new_id; db.player_id := Some current_player;
                db.x := models.x move; db.y := models.y move;
                db.symbol := X; db.move_number := 1%nat |}] |})).
  { intros Hk.
    assert (Hc : consistent st)
      by (eapply create_game_consistent; by apply Hcreate).
    apply (play_move_on_turn commit_ok move current_player rnd st X Hc);
      try done.
    unfold resolve_symbol. cbn. by rewrite bool_decide_eq_true_2. }
  split; intros Hk; rewrite Hrun by auto;
    unfold computer_to_move; cbn [st db.game db.set_turn db.opponent_type
                                  db.complete db.turn];
    by rewrite Hk.
Qed.

Lemma new_game_first_move_witness :
  in_range first_request = true
  /\ run (routes.play_move all_ok 7 first_request 1 3) (new_game "computer")
     = (Raise IntegrityError, human_move_alone).
Proof.
  split; [reflexivity|].
  destruct (new_game_first_move
              {| models.player_x_id := 1; models.player_o_id := None;
                 models.opponent_type := "computer" |} 1 7 all_ok
              first_request 3 eq_refl eq_refl) as (_ & _ & _ & Hcomp).
  apply Hcomp. reflexivity.
Defined.
